(** * CloudDependencyExplorer: the state and interaction logic of the dashboard

    A shallow embedding of the React component [CloudDependencyExplorer]:
    the catalog ([allCompanies]), the derived views ([filteredCompanies],
    [providerCounts], [displayedCompanies], the "Big 3" percentage) and the
    ingestion handler [handleAddCompany]; then the pie data and the pills
    ([pieData]), the handlers of the search box ([handleSearch], [onKeyDown])
    and of the provider selections, the title of the grid and the fallbacks
    of a logo ([Img.onError]).

    Modelling choices.
    - A JavaScript string is a [string]: a sequence of 8-bit code units.
      The code-unit level methods ([trim], [startsWith], [includes],
      [replace], [split], [charAt], [slice]) are defined here; the methods
      whose result depends on the Unicode tables or on the URL parser of the
      host ([toLowerCase], [toUpperCase], [new URL(s).hostname]) are the
      fields of the class [Runtime].
    - The seed catalog [defaultCompanies] is imported by the component from
      [../lib/company-data]; it is a variable of the sections below.
    - The object [counts] of [providerCounts] starts as [{}]: its own
      properties are a [gmap string Obj.count], and a key it does not own is
      read through [Object.prototype] ([Obj.read_of]). What is stored under
      a key is a number, or for a key that names an inherited property the
      string that [+ 1] makes of the inherited value ([Obj.Text]); an
      assignment to [__proto__] creates no property. The object literals
      [COLORS] and [PROVIDER_DISPLAY_NAMES] are read the same way.
    - [fetch] and [response.json()] return promises: one that never settles
      leaves the handler at its [await] ([Unsettled], [JsonUnsettled]).
    - A number is an IEEE 754 binary64 value ([Num]).
    - React state is the record [State]; a handler produces the list of the
      effects it issues (state setters, the [fetch] call), in order, and
      [run] applies them to a state. *)

From Stdlib Require Import ZArith Ascii.
From Stdlib Require Floats.SpecFloat.
From stdpp Require Import gmap strings list fin_maps sorting.

(** ** Code-unit level string methods *)

Module Str.

(** [s.startsWith(p)] *)
Fixpoint startsWith (s p : string) : bool :=
  match p, s with
  | EmptyString, _ => true
  | String a p', String b s' => if Ascii.eqb a b then startsWith s' p' else false
  | String _ _, EmptyString => false
  end.

(** [s.includes(q)]: some position of [s] starts an occurrence of [q]. *)
Fixpoint includes (s q : string) : bool :=
  if startsWith s q then true
  else match s with
       | EmptyString => false
       | String _ s' => includes s' q
       end.

(** The suffix of [s] from position [n] on. *)
Fixpoint drop (n : nat) (s : string) : string :=
  match n, s with
  | O, _ => s
  | S n', String _ s' => drop n' s'
  | S _, EmptyString => EmptyString
  end.

(** [s.replace(pat, rep)] for a string pattern and a replacement without
    [$]: the first occurrence of [pat], wherever it is, is replaced. *)
Fixpoint replace (s pat rep : string) : string :=
  if startsWith s pat then rep +:+ drop (String.length pat) s
  else match s with
       | EmptyString => EmptyString
       | String c s' => String c (replace s' pat rep)
       end.

(** [s.split(sep)] for a separator of one code unit. *)
Fixpoint split (s : string) (sep : ascii) : list string :=
  match s with
  | EmptyString => [EmptyString]
  | String c s' =>
      if Ascii.eqb c sep then EmptyString :: split s' sep
      else match split s' sep with
           | piece :: rest => String c piece :: rest
           | [] => [String c EmptyString]
           end
  end.

(** [s.charAt(0)] *)
Definition charAt0 (s : string) : string :=
  match s with
  | EmptyString => EmptyString
  | String c _ => String c EmptyString
  end.

(** [s.slice(1)] *)
Definition slice1 (s : string) : string := drop 1 s.

(** White space and line terminators among the 8-bit code units:
    TAB, LF, VT, FF, CR, SPACE and NBSP. *)
Definition isWhiteSpace (c : ascii) : bool :=
  let n := nat_of_ascii c in
  (Nat.leb 9 n && Nat.leb n 13) || Nat.eqb n 32 || Nat.eqb n 160.

Fixpoint trimStart (s : string) : string :=
  match s with
  | EmptyString => EmptyString
  | String c s' => if isWhiteSpace c then trimStart s' else s
  end.

Fixpoint trimEnd (s : string) : string :=
  match s with
  | EmptyString => EmptyString
  | String c s' =>
      match trimEnd s' with
      | EmptyString => if isWhiteSpace c then EmptyString else String c EmptyString
      | t => String c t
      end
  end.

(** [s.trim()] *)
Definition trim (s : string) : string := trimEnd (trimStart s).

(** [!s] for a string: only the empty string is falsy. *)
Definition falsy (s : string) : bool :=
  match s with EmptyString => true | _ => false end.

(** The code units of [s] before the first one satisfying [stop]. *)
Fixpoint takeUntil (stop : ascii -> bool) (s : string) : string :=
  match s with
  | EmptyString => EmptyString
  | String c s' => if stop c then EmptyString else String c (takeUntil stop s')
  end.

(** [q] occurs in [s]: the specification of [includes]. *)
Definition occurs_in (q s : string) : Prop :=
  exists pre suf, s = pre +:+ q +:+ suf.

End Str.

(** ** The host's string and URL services *)

Class Runtime := {
  (** [s.toLowerCase()] *)
  toLowerCase : string -> string;
  (** [s.toUpperCase()] *)
  toUpperCase : string -> string;
  (** [new URL(s).hostname]; [None] when the constructor throws. *)
  URL_hostname : string -> option string;
  (** [String(Object.prototype[key])] for a [key] that names a property of
      [Object.prototype]: the source text of a built-in function, or the
      text of the prototype object itself. *)
  inheritedText : string -> string;
  (** Case mapping has no character to map in the empty string. *)
  toLowerCase_empty : toLowerCase "" = "";
}.

(** ** Data model *)

(** A value read from a company's or a response's [provider] field: a string,
    or [undefined] when the field is absent. *)
Inductive jsval :=
| JUndefined
| JString (s : string).

(** [v === s] for a string [s]. *)
Definition strict_eq (v : jsval) (s : string) : bool :=
  match v with
  | JString t => String.eqb t s
  | JUndefined => false
  end.

(** The property key [v] is converted to when it indexes an object. *)
Definition toPropertyKey (v : jsval) : string :=
  match v with
  | JString s => s
  | JUndefined => "undefined"
  end.

Record Company := {
  name : string;
  symbol : string;
  domain : string;
  provider : jsval;
}.

(** The [useState] cells of the component; [None] is [null]. *)
Record State := {
  searchQuery : string;
  selectedProvider : option string;
  customCompanies : list Company;
  newCompanyUrl : string;
  isDetecting : bool;
  detectionError : option string;
  hoveredProvider : option string;
}.

(** [!p] for a [string | null]: [null] and the empty string are falsy. *)
Definition unset (p : option string) : bool :=
  match p with
  | None => true
  | Some s => Str.falsy s
  end.

(** [v === p] for [p : string | null]: a provider field is never [null]. *)
Definition strict_eq_opt (v : jsval) (p : option string) : bool :=
  match p with
  | Some s => strict_eq v s
  | None => false
  end.

Definition with_searchQuery (q : string) (st : State) : State :=
  {| searchQuery := q; selectedProvider := selectedProvider st;
     customCompanies := customCompanies st; newCompanyUrl := newCompanyUrl st;
     isDetecting := isDetecting st; detectionError := detectionError st;
     hoveredProvider := hoveredProvider st |}.

Definition with_selectedProvider (p : option string) (st : State) : State :=
  {| searchQuery := searchQuery st; selectedProvider := p;
     customCompanies := customCompanies st; newCompanyUrl := newCompanyUrl st;
     isDetecting := isDetecting st; detectionError := detectionError st;
     hoveredProvider := hoveredProvider st |}.

Definition with_customCompanies (l : list Company) (st : State) : State :=
  {| searchQuery := searchQuery st; selectedProvider := selectedProvider st;
     customCompanies := l; newCompanyUrl := newCompanyUrl st;
     isDetecting := isDetecting st; detectionError := detectionError st;
     hoveredProvider := hoveredProvider st |}.

Definition with_newCompanyUrl (u : string) (st : State) : State :=
  {| searchQuery := searchQuery st; selectedProvider := selectedProvider st;
     customCompanies := customCompanies st; newCompanyUrl := u;
     isDetecting := isDetecting st; detectionError := detectionError st;
     hoveredProvider := hoveredProvider st |}.

Definition with_isDetecting (b : bool) (st : State) : State :=
  {| searchQuery := searchQuery st; selectedProvider := selectedProvider st;
     customCompanies := customCompanies st; newCompanyUrl := newCompanyUrl st;
     isDetecting := b; detectionError := detectionError st;
     hoveredProvider := hoveredProvider st |}.

Definition with_detectionError (e : option string) (st : State) : State :=
  {| searchQuery := searchQuery st; selectedProvider := selectedProvider st;
     customCompanies := customCompanies st; newCompanyUrl := newCompanyUrl st;
     isDetecting := isDetecting st; detectionError := e;
     hoveredProvider := hoveredProvider st |}.

Definition with_hoveredProvider (h : option string) (st : State) : State :=
  {| searchQuery := searchQuery st; selectedProvider := selectedProvider st;
     customCompanies := customCompanies st; newCompanyUrl := newCompanyUrl st;
     isDetecting := isDetecting st; detectionError := detectionError st;
     hoveredProvider := h |}.

(** The state of a freshly mounted component. *)
Definition initialState : State :=
  {| searchQuery := ""; selectedProvider := None; customCompanies := [];
     newCompanyUrl := ""; isDetecting := false; detectionError := None;
     hoveredProvider := None |}.

Global Instance jsval_eq_dec : EqDecision jsval.
Proof. solve_decision. Defined.

(** ** JavaScript numbers *)

Module Num.
Import SpecFloat.

(** A number is an IEEE 754 binary64 value. *)
Definition prec : Z := 53.
Definition emax : Z := 1024.
Definition number : Type := spec_float.

Definition NaN : number := S754_nan.

(** The number of a count; exact below [2^53]. *)
Definition ofNat (n : nat) : number :=
  binary_normalize prec emax (Z.of_nat n) 0 false.
Definition ofZ (z : Z) : number :=
  binary_normalize prec emax z 0 false.

(** [x / y] and [x * y], rounded to nearest, ties to even. *)
Definition div (x y : number) : number := SFdiv prec emax x y.
Definition mul (x y : number) : number := SFmul prec emax x y.

(** [Math.round(x)]: the integer nearest to [x], a tie going up;
    [NaN], the infinities and the zeros are returned as they are, and a
    result that rounds to zero keeps the sign of [x]. *)
Definition round (x : number) : number :=
  match x with
  | S754_finite s m e =>
      if (0 <=? e)%Z then x
      else
        let n := cond_Zopp s (Zpos m) in
        let k := (- e)%Z in
        let r := ((2 * n + 2 ^ k) / 2 ^ (k + 1))%Z in
        if (r =? 0)%Z then S754_zero s else ofZ r
  | _ => x
  end.

(** Equality of two numbers as values of the datatype. *)
Definition eqb (x y : number) : bool :=
  match x, y with
  | S754_zero a, S754_zero b => Bool.eqb a b
  | S754_infinity a, S754_infinity b => Bool.eqb a b
  | S754_nan, S754_nan => true
  | S754_finite a m e, S754_finite b m' e' =>
      Bool.eqb a b && Pos.eqb m m' && Z.eqb e e'
  | _, _ => false
  end.

(** [Math.round(k / n * 100)] for two counts. *)
Definition percentOf (k n : nat) : number :=
  round (mul (div (ofNat k) (ofNat n)) (ofNat 100)).

(** [r] is an integer nearest to [100 * k / n]: at most one half away. *)
Definition nearestPercent (k n : nat) (r : Z) : Prop :=
  (Z.abs (200 * Z.of_nat k - 2 * r * Z.of_nat n) <= Z.of_nat n)%Z.

(** The test that [percentOf k n] is an integer nearest to [100 * k / n]:
    the quotient rounded half up, or the integer below it at a tie. *)
Definition nearestPercentb (k n : nat) : bool :=
  let num := (200 * Z.of_nat k + Z.of_nat n)%Z in
  let den := (2 * Z.of_nat n)%Z in
  let x := percentOf k n in
  eqb x (ofZ (num / den))
  || ((num mod den =? 0)%Z && eqb x (ofZ (num / den - 1))).

(** The test for every [0 < n <= bound] and [k <= n]. *)
Definition nearestUpTo (bound : nat) : bool :=
  forallb (fun n => forallb (fun k => nearestPercentb k (S n)) (seq 0 (S (S n))))
          (seq 0 bound).
End Num.

(** ** Entry ingestion *)

(** What a handler does to the outside: calls of state setters, the
    detection request, the log line. *)
Inductive effect :=
| SetIsDetecting (b : bool)
| SetDetectionError (e : option string)
| AppendCustomCompany (c : Company)
| SetNewCompanyUrl (u : string)
| Fetch (url : string)
| ConsoleError.

(** The body of a response as [await response.json()] and the later read of
    [result.provider] see it: not JSON, the value [null], a value whose
    [provider] property reads as [v], or a promise that never settles. *)
Inductive json_body :=
| InvalidJson
| JsonNull
| JsonValue (v : jsval)
| JsonUnsettled.

(** The outcome of [await fetch(...)]: the promise rejects, resolves to a
    response with its [ok] flag and body, or never settles. *)
Inductive fetch_result :=
| Rejected
| Response (ok : bool) (body : json_body)
| Unsettled.

(** How a block of statements completes; [Suspended]: it stays at an
    [await] whose promise never settles, and nothing after it runs. *)
Inductive completion (A : Type) :=
| Normal (a : A)
| Return
| Throw
| Suspended.
Arguments Normal {A} a.
Arguments Return {A}.
Arguments Throw {A}.
Arguments Suspended {A}.

(** A block: the effects it issued and how it completed. *)
Definition Try (A : Type) : Type := list effect * completion A.

Definition throw {A} : Try A := ([], Throw).
Definition return_ {A} : Try A := ([], Return).
Definition suspend {A} : Try A := ([], Suspended).
Definition emit (e : effect) : Try unit := ([e], Normal tt).

Global Instance Try_ret : MRet Try := fun A a => ([], Normal a).

Global Instance Try_bind : MBind Try := fun A B k m =>
  match m with
  | (es, Normal a) => let (es', c) := k a in (es ++ es', c)
  | (es, Return) => (es, Return)
  | (es, Throw) => (es, Throw)
  | (es, Suspended) => (es, Suspended)
  end.

(** A value that may be missing: using a missing one throws. *)
Definition orThrow {A} (o : option A) : Try A :=
  match o with
  | Some a => mret a
  | None => throw
  end.

(** A setter applied to the state; the request and the log line leave it. *)
Definition applyEffect (st : State) (e : effect) : State :=
  match e with
  | SetIsDetecting b => with_isDetecting b st
  | SetDetectionError err => with_detectionError err st
  | AppendCustomCompany c => with_customCompanies (customCompanies st ++ [c]) st
  | SetNewCompanyUrl u => with_newCompanyUrl u st
  | Fetch _ => st
  | ConsoleError => st
  end.

Definition run (st : State) (es : list effect) : State :=
  foldl applyEffect st es.

(** The detection requests among the effects. *)
Definition requests (es : list effect) : list string :=
  omap (fun e => match e with Fetch u => Some u | _ => None end) es.

(** ** Arrays and objects *)

Module Arr.

(** [x] put in its place in a list sorted for [cmp]: after the elements
    that [cmp] orders before it, before the ones it ties with. *)
Fixpoint insert {A} (cmp : A -> A -> Z) (x : A) (l : list A) : list A :=
  match l with
  | [] => [x]
  | y :: l' => if (0 <? cmp x y)%Z then y :: insert cmp x l' else x :: l
  end.

(** The stable sort of [l] for [cmp]. *)
Definition stableSort {A} (cmp : A -> A -> Z) (l : list A) : list A :=
  foldr (insert cmp) [] l.

(** The comparator answers a number on every pair of elements of [l]. *)
Definition numeric {A} (cmp : A -> A -> option Z) (l : list A) : bool :=
  forallb (fun a => forallb (fun b => bool_decide (is_Some (cmp a b))) l) l.

(** [l.sort(cmp)], for a comparator that is a difference of two numbers, or
    [NaN] ([None]). When it answers a number on every pair, it orders the
    elements consistently and the sort is the stable one. When it answers
    [NaN] on some pair it is not a consistent comparator: the order is left
    to the implementation ([None]), unless [l] has a single element. *)
Definition sort {A} (cmp : A -> A -> option Z) (l : list A) : option (list A) :=
  if numeric cmp l then Some (stableSort (fun a b => default 0%Z (cmp a b)) l)
  else if Nat.leb (length l) 1 then Some l
  else None.

End Arr.

Module Obj.

(** The names of the properties of [Object.prototype], which every object
    literal inherits. *)
Definition prototypeKeys : list string :=
  ["constructor"; "__defineGetter__"; "__defineSetter__"; "hasOwnProperty";
   "__lookupGetter__"; "__lookupSetter__"; "isPrototypeOf";
   "propertyIsEnumerable"; "toString"; "valueOf"; "__proto__";
   "toLocaleString"].

Definition inherited (key : string) : bool :=
  existsb (String.eqb key) prototypeKeys.

(** What [o[key]] reads in an object whose own properties hold values of
    [V]: the own property, else the value that [Object.prototype] has under
    [key] (a function, or for [__proto__] the prototype itself: an object in
    both cases, and truthy), else [undefined]. *)
Inductive read (V : Type) :=
| Own (v : V)
| Inherited (key : string)
| Undefined.
Arguments Own {V} v.
Arguments Inherited {V} key.
Arguments Undefined {V}.

Definition read_of {V} (own : option V) (key : string) : read V :=
  match own with
  | Some v => Own v
  | None => if inherited key then Inherited key else Undefined
  end.

(** A value stored in [counts]: a number, or the string made of the text of
    [Object.prototype[key]] followed by [ones] digits [1]. *)
Inductive count :=
| Number (n : nat)
| Text (key : string) (ones : nat).

(** [(v || 0) + 1]: an inherited value is truthy and [+] turns it into its
    text, followed by [1]; a string gets one more [1]. *)
Definition increment (v : read count) : count :=
  match v with
  | Own (Number n) => Number (n + 1)
  | Own (Text key ones) => Text key (ones + 1)
  | Inherited key => Text key 1
  | Undefined => Number (0 + 1)
  end.

(** [v || 0] when it is a number. *)
Definition orZero (v : read count) : option nat :=
  match v with
  | Own (Number n) => Some n
  | Undefined => Some 0
  | Own (Text _ _) | Inherited _ => None
  end.

Definition number (c : count) : option nat := orZero (Own c).

(** [table[key]] among the own properties of an object. *)
Fixpoint get {V} (table : list (string * V)) (key : string) : option V :=
  match table with
  | [] => None
  | (k, v) :: rest => if String.eqb k key then Some v else get rest key
  end.

(** [table[key]] *)
Definition lookup {V} (table : list (string * V)) (key : string) : read V :=
  read_of (get table key) key.

(** The own properties of an object from strings to counts, in the order of
    their creation. *)
Definition props : Type := list (string * count).

(** The own property [key] set to [v]: an existing property keeps its
    place, a new one is created last. *)
Fixpoint set (key : string) (v : count) (o : props) : props :=
  match o with
  | [] => [(key, v)]
  | (k, c) :: rest =>
      if String.eqb k key then (k, v) :: rest else (k, c) :: set key v rest
  end.

(** [o[key] = (o[key] || 0) + 1]. The assignment to [__proto__] goes to the
    setter inherited from [Object.prototype], which ignores a value that is
    not an object: no property is created. The other inherited properties
    are writable data properties: the assignment creates an own one. *)
Definition bump (key : string) (o : props) : props :=
  let v := increment (lookup o key) in
  if String.eqb key "__proto__" then o else set key v o.

Definition isDigit (c : ascii) : bool :=
  let n := nat_of_ascii c in Nat.leb 48 n && Nat.leb n 57.

(** The number written by a string of decimal digits. *)
Fixpoint digits (s : string) (acc : N) : option N :=
  match s with
  | EmptyString => Some acc
  | String c s' =>
      if isDigit c then digits s' (10 * acc + N.of_nat (nat_of_ascii c - 48))%N
      else None
  end.

(** The array index a key is, if it is one: a canonical numeral below
    [2^32 - 1]. *)
Definition arrayIndex (key : string) : option N :=
  match key with
  | EmptyString => None
  | String c rest =>
      if Ascii.eqb c "0" && negb (Str.falsy rest) then None
      else
        match digits key 0 with
        | Some n => if (n <? 4294967295)%N then Some n else None
        | None => None
        end
  end.

(** [Object.entries(o)]: the array indices in ascending order, then the
    other keys in the order of their creation. *)
Definition entries (o : props) : list (string * count) :=
  let indexed :=
    omap (fun e => match arrayIndex e.1 with
                   | Some i => Some (i, e)
                   | None => None
                   end) o in
  map snd (Arr.stableSort (fun a b => (Z.of_N a.1 - Z.of_N b.1)%Z) indexed)
  ++ List.filter (fun e => match arrayIndex e.1 with
                           | Some _ => false
                           | None => true
                           end) o.

End Obj.

(** ** The palette and the pie chart *)

Definition COLORS : list (string * string) :=
  [("AWS", "#ff9900"); ("Azure", "#0089d6"); ("GCP", "#4285f4");
   ("Oracle", "#f80000"); ("Alibaba", "#ff6a00"); ("Other", "#6b7280")].

Definition PROVIDER_DISPLAY_NAMES : list (string * string) :=
  [("AWS", "AWS"); ("Azure", "Azure"); ("GCP", "Google Cloud");
   ("Oracle", "Oracle"); ("Alibaba", "Alibaba Cloud"); ("Other", "Other")].

(** [COLORS[key] || COLORS.Other] *)
Definition colorOf (key : string) : Obj.read string :=
  match Obj.lookup COLORS key with
  | Obj.Own c => if Str.falsy c then Obj.lookup COLORS "Other" else Obj.Own c
  | Obj.Inherited k => Obj.Inherited k
  | Obj.Undefined => Obj.lookup COLORS "Other"
  end.

(** [PROVIDER_DISPLAY_NAMES[key] || key] *)
Definition displayNameOf (key : string) : Obj.read string :=
  match Obj.lookup PROVIDER_DISPLAY_NAMES key with
  | Obj.Own n => if Str.falsy n then Obj.Own key else Obj.Own n
  | Obj.Inherited k => Obj.Inherited k
  | Obj.Undefined => Obj.Own key
  end.

(** [`${v}`] *)
Definition textOf `{Runtime} (v : Obj.read string) : string :=
  match v with
  | Obj.Own s => s
  | Obj.Inherited key => inheritedText key
  | Obj.Undefined => "undefined"
  end.

Module Pie.
(** An element of [pieData]. *)
Record slice :=
  { name : string; value : Obj.count; color : Obj.read string }.
End Pie.

(** The comparator of the sort: [b[1] - a[1]], [NaN] ([None]) when one of
    the two is a string that is not a numeral. *)
Definition byCountDesc (a b : string * Obj.count) : option Z :=
  match a.2, b.2 with
  | Obj.Number x, Obj.Number y => Some (Z.of_nat y - Z.of_nat x)%Z
  | _, _ => None
  end.

(** ** The events of the page *)

(** What the other handlers do: the setters of the ingestion draft, the
    setters of the search and of the two provider selections, and a timer
    started with [setTimeout]. *)
Inductive uiEffect :=
| Draft (e : effect)
| SetSearchQuery (q : string)
| SetSelectedProvider (p : option string)
| SetHoveredProvider (h : option string)
| SetTimeout (callback : effect) (ms : nat).

(** A timer changes nothing until it fires. *)
Definition applyUi (st : State) (e : uiEffect) : State :=
  match e with
  | Draft e' => applyEffect st e'
  | SetSearchQuery q => with_searchQuery q st
  | SetSelectedProvider p => with_selectedProvider p st
  | SetHoveredProvider h => with_hoveredProvider h st
  | SetTimeout _ _ => st
  end.

Definition runUi (st : State) (es : list uiEffect) : State :=
  foldl applyUi st es.

(** The callbacks of the timers started, in the order of their start. *)
Definition timers (es : list uiEffect) : list effect :=
  omap (fun e => match e with SetTimeout cb _ => Some cb | _ => None end) es.

(** The detection requests among the effects of an event. *)
Definition uiRequests (es : list uiEffect) : list string :=
  requests (omap (fun e => match e with Draft e' => Some e' | _ => None end) es).

(** [selectedProvider === provider] *)
Definition isSelected (st : State) (provider : string) : bool :=
  match selectedProvider st with
  | Some s => String.eqb s provider
  | None => false
  end.

(** A click on the pill or on the pie cell of [provider]. *)
Definition onProviderClick (st : State) (provider : string) : list uiEffect :=
  [SetSelectedProvider (if isSelected st provider then None else Some provider)].

(** The pointer enters, and leaves, the pill or the pie sector of a
    provider. *)
Definition onProviderEnter (provider : string) : list uiEffect :=
  [SetHoveredProvider (Some provider)].
Definition onProviderLeave : list uiEffect := [SetHoveredProvider None].

(** The cross of the search box. *)
Definition onClearSearch : list uiEffect :=
  [SetSearchQuery ""; SetSelectedProvider None].

(** The "Clear Filter" button. *)
Definition onClearFilter : list uiEffect :=
  [SetSelectedProvider None; SetHoveredProvider None].

(** [hoveredProvider || selectedProvider] *)
Definition focusedProvider (st : State) : option string :=
  if unset (hoveredProvider st) then selectedProvider st else hoveredProvider st.

(** The title over the grid, without the count that follows it. *)
Definition gridTitle `{Runtime} (st : State) : string :=
  match focusedProvider st with
  | Some p => if Str.falsy p then "All Companies"
              else textOf (displayNameOf p) +:+ " Companies"
  | None => "All Companies"
  end.

(** The opacity of the pie cell of the entry [name']: 1, or 0.3 when
    [dimmed]. *)
Definition cellDimmed (st : State) (name' : string) : bool :=
  if unset (hoveredProvider st)
  then negb (unset (selectedProvider st)) && negb (isSelected st name')
  else negb (strict_eq_opt (JString name') (hoveredProvider st)).

(** ** The logo of a company and its fallbacks *)

Module Img.

Definition unreserved (c : ascii) : bool :=
  let n := nat_of_ascii c in
  (Nat.leb 65 n && Nat.leb n 90) || (Nat.leb 97 n && Nat.leb n 122)
  || (Nat.leb 48 n && Nat.leb n 57)
  || Str.includes "-_.!~*'()" (String c "").

Definition hexDigit (n : nat) : ascii :=
  if Nat.ltb n 10 then ascii_of_nat (48 + n) else ascii_of_nat (55 + n).

(** [%XX] for a byte. *)
Definition escape (byte : nat) (rest : string) : string :=
  String "%" (String (hexDigit (byte / 16)) (String (hexDigit (byte mod 16)) rest)).

(** [encodeURIComponent(s)] for code units below 256: an unreserved one is
    kept, another one is escaped byte by byte in UTF-8. *)
Fixpoint encodeURIComponent (s : string) : string :=
  match s with
  | EmptyString => EmptyString
  | String c s' =>
      let n := nat_of_ascii c in
      if unreserved c then String c (encodeURIComponent s')
      else if Nat.ltb n 128 then escape n (encodeURIComponent s')
      else escape (192 + n / 64) (escape (128 + n mod 64) (encodeURIComponent s'))
  end.

(** The [src] the image is rendered with. *)
Definition logoUrl (c : Company) : string :=
  "https://logo.clearbit.com/" +:+ domain c.

Definition faviconUrl (c : Company) : string :=
  "https://www.google.com/s2/favicons?domain=" +:+ domain c +:+ "&sz=128".

Definition avatarUrl (c : Company) : string :=
  "https://ui-avatars.com/api/?name=" +:+ encodeURIComponent (name c)
  +:+ "&background=random&size=128".

(** [onError] of the image of [c], [src] being what [target.src] reads:
    the new [src], or [None] when the handler assigns nothing. *)
Definition onError (c : Company) (src : string) : option string :=
  if Str.includes src "clearbit" then Some (faviconUrl c)
  else if Str.includes src "google.com" then Some (avatarUrl c)
  else None.

End Img.

(** ** Occurrences of a word in a string built around a variable part *)

(** The non-empty suffixes of a string, the longest first. *)
Fixpoint suffixes (s : string) : list string :=
  match s with
  | EmptyString => []
  | String _ s' => s :: suffixes s'
  end.

(** [t] and [q] differ at a position that both have. *)
Fixpoint clash (t q : string) : bool :=
  match t, q with
  | String a t', String b q' => if Ascii.eqb a b then clash t' q' else true
  | _, _ => false
  end.

(** No occurrence of [q] in [pre ++ d ++ suf] can touch [pre] or [suf]: none
    begins in [pre], none ends in [suf]. *)
Definition apart (pre q suf : string) : bool :=
  forallb (fun t => clash t q) (suffixes pre)
  && forallb (fun t => negb (Str.startsWith suf t)) (suffixes q)
  && negb (Str.includes suf q).

(** ** A runtime to run the model on concrete inputs

    Case mapping of the ASCII letters, and the host name of a URL of the
    plain shape [scheme://host[:port][/path][?query][#fragment]] with an
    ASCII host. On such inputs the host's services give the same answers. *)

Module Reference.

Definition lowerChar (c : ascii) : ascii :=
  let n := nat_of_ascii c in
  if Nat.leb 65 n && Nat.leb n 90 then ascii_of_nat (n + 32) else c.

Definition upperChar (c : ascii) : ascii :=
  let n := nat_of_ascii c in
  if Nat.leb 97 n && Nat.leb n 122 then ascii_of_nat (n - 32) else c.

Fixpoint mapChars (f : ascii -> ascii) (s : string) : string :=
  match s with
  | EmptyString => EmptyString
  | String c s' => String (f c) (mapChars f s')
  end.

Definition endsAuthority (c : ascii) : bool :=
  Ascii.eqb c "/" || Ascii.eqb c "?" || Ascii.eqb c "#" || Ascii.eqb c ":".

(** The scheme of a URL is matched in either case. *)
Definition hostname (url : string) : option string :=
  let lower := mapChars lowerChar url in
  let rest :=
    if Str.startsWith lower "http://" then Some (Str.drop 7 lower)
    else if Str.startsWith lower "https://" then Some (Str.drop 8 lower)
    else None in
  match rest with
  | Some r =>
      match Str.takeUntil endsAuthority r with
      | EmptyString => None
      | host => Some host
      end
  | None => None
  end.

(** The text of the properties of [Object.prototype], as V8 prints it. *)
Definition nativeText (key : string) : string :=
  if String.eqb key "__proto__" then "[object Object]"
  else if String.eqb key "constructor" then "function Object() { [native code] }"
  else "function " +:+ key +:+ "() { [native code] }".

Definition runtime : Runtime :=
  {| toLowerCase := mapChars lowerChar;
     toUpperCase := mapChars upperChar;
     URL_hostname := hostname;
     inheritedText := nativeText;
     toLowerCase_empty := eq_refl |}.

End Reference.

(** ** Sample data: a small seed catalog and a detection service *)

Module Scenario.

Definition netflix : Company :=
  {| name := "Netflix"; symbol := "NFLX"; domain := "netflix.com";
     provider := JString "AWS" |}.
Definition reddit : Company :=
  {| name := "Reddit"; symbol := "RDDT"; domain := "reddit.com";
     provider := JString "AWS" |}.
Definition slack : Company :=
  {| name := "Slack"; symbol := "WORK"; domain := "slack.com";
     provider := JString "AWS" |}.
Definition linkedin : Company :=
  {| name := "LinkedIn"; symbol := "MSFT"; domain := "linkedin.com";
     provider := JString "Azure" |}.
Definition zoom : Company :=
  {| name := "Zoom"; symbol := "ZM"; domain := "zoom.us";
     provider := JString "Oracle" |}.

(** Counts [{AWS: 3, Azure: 1, Oracle: 1}], five companies. *)
Definition seed : list Company := [netflix; reddit; slack; linkedin; zoom].

(** A detection service that answers every request with [{provider: p}]. *)
Definition answers (p : jsval) : string -> fetch_result :=
  fun _ => Response true (JsonValue p).

(** The scenarios run on the reference runtime. *)
Definition rt : Runtime := Reference.runtime.

(** The state after the user typed [url] in the draft. *)
Definition typed (url : string) : State := with_newCompanyUrl url initialState.

(** A draft of spaces, under the message of an earlier duplicate. *)
Definition staleError : State :=
  with_detectionError (Some "Company already exists") (typed "   ").

(** Forty companies with distinct one-letter names, the first 23 on AWS and
    the other 17 on Oracle. *)
Definition lettered (i : nat) : Company :=
  let letter := String (ascii_of_nat (65 + i)) "" in
  {| name := letter; symbol := letter; domain := letter +:+ ".com";
     provider := JString (if Nat.ltb i 23 then "AWS" else "Oracle") |}.
Definition forty : list Company := map lettered (seq 0 40).

(** The pointer over the AWS pill, with a search and a sticky filter that
    match no company. *)
Definition hoveringAWS : State :=
  with_hoveredProvider (Some "AWS")
    (with_selectedProvider (Some "GCP") (with_searchQuery "zzz" initialState)).

(** A detection service that answers every request with a server error. *)
Definition failing : string -> fetch_result :=
  fun _ => Response false InvalidJson.

(** A detection service that never answers. *)
Definition silent : string -> fetch_result := fun _ => Unsettled.

(** The pointer over the pill of a provider, nothing else touched. *)
Definition hovering (p : string) : State :=
  with_hoveredProvider (Some p) initialState.

(** A company whose domain contains the word the image handler looks for. *)
Definition clearbit : Company :=
  {| name := "Clearbit"; symbol := "CLBT"; domain := "clearbit.com";
     provider := JString "AWS" |}.

(** The query typed in the search box, nothing else touched. *)
Definition searching (q : string) : State := with_searchQuery q initialState.

End Scenario.

(** ** Derived views *)

Section Dashboard.
Context `{Runtime}.
Variable defaultCompanies : list Company.

(** [[...defaultCompanies, ...customCompanies]] *)
Definition allCompanies (st : State) : list Company :=
  defaultCompanies ++ customCompanies st.

Definition filteredCompanies (st : State) : list Company :=
  List.filter
    (fun company =>
       let matchesSearch :=
         Str.includes (toLowerCase (name company)) (toLowerCase (searchQuery st)) in
       let matchesProvider :=
         unset (selectedProvider st)
         || strict_eq_opt (provider company) (selectedProvider st) in
       matchesSearch && matchesProvider)
    (allCompanies st).

(** One pass over the catalog:
    [counts[company.provider] = (counts[company.provider] || 0) + 1]. *)
Definition countCompany (counts : gmap string Obj.count) (company : Company)
  : gmap string Obj.count :=
  let key := toPropertyKey (provider company) in
  let v := Obj.increment (Obj.read_of (counts !! key) key) in
  if String.eqb key "__proto__" then counts else <[key := v]> counts.

Definition providerCounts (st : State) : gmap string Obj.count :=
  foldl countCompany ∅ (allCompanies st).

Definition displayedCompanies (st : State) : list Company :=
  if unset (hoveredProvider st) then filteredCompanies st
  else List.filter
         (fun c => strict_eq_opt (provider c) (hoveredProvider st))
         (allCompanies st).

(** ** What the views are specified to be *)

(** The provider filter [p] is set to the provider [s]. *)
Definition set_to (p : option string) (s : string) : Prop :=
  p = Some s /\ s <> "".

(** The match predicate of the search: the name contains the query, both
    taken in lower case, and the provider is the selected one, if any. *)
Definition matches (q : string) (p : option string) (c : Company) : Prop :=
  Str.occurs_in (toLowerCase q) (toLowerCase (name c))
  /\ (forall s, set_to p s -> provider c = JString s).

(** The first label of a domain: its code units before the first dot. *)
Definition firstLabel (d : string) : string :=
  Str.takeUntil (fun c => Ascii.eqb c ".") d.

(** The sum of two values when both are numbers. *)
Definition plusNumbers (a b : option nat) : option nat :=
  x ← a; y ← b; Some (x + y).

(** The sum of the values of a counts object over all its keys; [None] when
    some value is not a number. *)
Definition sumCounts (counts : gmap string Obj.count) : option nat :=
  map_fold (fun _ c acc => plusNumbers (Obj.number c) acc) (Some 0) counts.

(** ** The handler *)

(** The normalization of an input:
    [trim], host name of an [http://] or [https://] URL, [replace]. *)
Definition normalizeDomain (raw : string) : option string :=
  let domain' := Str.trim raw in
  host ← (if Str.startsWith domain' "http://" || Str.startsWith domain' "https://"
          then URL_hostname domain'
          else Some domain');
  Some (Str.replace host "www." "").

(** [name.charAt(0).toUpperCase() + name.slice(1)] *)
Definition formatName (name' : string) : string :=
  toUpperCase (Str.charAt0 name') +:+ Str.slice1 name'.

(** The body of the [try] block. *)
Definition tryBlock (st : State) (detect : string -> fetch_result) : Try unit :=
  domain' ← orThrow (normalizeDomain (newCompanyUrl st));
  if existsb (fun c => String.eqb c.(domain) domain')
             (allCompanies st)
  then
    emit (SetDetectionError (Some "Company already exists"));;
    emit (SetIsDetecting false);;
    return_
  else
    emit (Fetch (Str.trim (newCompanyUrl st)));;
    match detect (Str.trim (newCompanyUrl st)) with
    | Rejected => throw
    | Unsettled => suspend
    | Response ok body =>
        if negb ok then throw
        else
          match body with
          | InvalidJson => throw
          | JsonUnsettled => suspend
          | result =>
              name' ← orThrow (head (Str.split domain' "."));
              let formattedName := formatName name' in
              match result with
              | JsonValue v =>
                  let newCompany :=
                    {| name := formattedName; symbol := "CUSTOM";
                       domain := domain'; provider := v |} in
                  emit (AppendCustomCompany newCompany);;
                  emit (SetNewCompanyUrl "")
              | _ => throw
              end
          end
    end.

(** [handleAddCompany], started in state [st], with the detection
    service answering [detect url] to the request for [url]: the [try]
    block, then [catch] if it threw, then [finally] unless it is still
    waiting. *)
Definition handleAddCompany (st : State) (detect : string -> fetch_result)
  : list effect :=
  if Str.falsy (Str.trim (newCompanyUrl st)) then []
  else
    let (es, c) := tryBlock st detect in
    [SetIsDetecting true; SetDetectionError None]
    ++ es
    ++ match c with
       | Throw =>
           [ConsoleError;
            SetDetectionError (Some "Failed to detect cloud provider. Please try again.")]
       | _ => []
       end
    ++ match c with
       | Suspended => []
       | _ => [SetIsDetecting false]
       end.

(** [(providerCounts["AWS"] || 0) + (providerCounts["Azure"] || 0)
    + (providerCounts["GCP"] || 0)]; [None] when an operand is not a number:
    the sum is then a string that is not a numeral. *)
Definition big3Sum (st : State) : option nat :=
  let counts := providerCounts st in
  let count key := Obj.orZero (Obj.read_of (counts !! key) key) in
  plusNumbers (plusNumbers (count "AWS") (count "Azure")) (count "GCP").

(** The companies counted under the three keys of the "Big 3". *)
Definition big3Count (st : State) : nat := default 0 (big3Sum st).

(** [Math.round((AWS + Azure + GCP) / allCompanies.length * 100)] *)
Definition big3Percent (st : State) : Num.number :=
  match big3Sum st with
  | Some sum =>
      Num.round
        (Num.mul
           (Num.div (Num.ofNat sum) (Num.ofNat (length (allCompanies st))))
           (Num.ofNat 100))
  | None => Num.NaN
  end.

(** ** The pie chart and the pills *)

(** The object [counts] with its properties in the order of their creation. *)
Definition providerEntries (st : State) : Obj.props :=
  foldl (fun o company => Obj.bump (toPropertyKey (provider company)) o)
        [] (allCompanies st).

(** [Object.entries(providerCounts).sort((a, b) => b[1] - a[1])]: the row of
    pills, and the slices of the pie before they get their colour. *)
Definition sortedEntries (st : State) : option (list (string * Obj.count)) :=
  Arr.sort byCountDesc (Obj.entries (providerEntries st)).

Definition pieData (st : State) : option (list Pie.slice) :=
  map (fun e => {| Pie.name := e.1; Pie.value := e.2; Pie.color := colorOf e.1 |})
    <$> sortedEntries st.

(** ** The search box *)

(** [handleSearch(value)] *)
Definition handleSearch (st : State) (value : string) : list uiEffect :=
  SetSearchQuery value
  :: (if Str.includes value "."
         && Nat.ltb 3 (String.length value)
         && negb (existsb
                    (fun c => Str.includes (toLowerCase (name c)) (toLowerCase value))
                    (allCompanies st))
      then [SetTimeout (SetNewCompanyUrl value) 500]
      else []).

(** [onKeyDown] of the search box: the handler started is the one of the
    render, which reads the draft of [st]. *)
Definition onKeyDown (st : State) (key : string) (detect : string -> fetch_result)
  : list uiEffect :=
  if String.eqb key "Enter" && Str.includes (searchQuery st) "."
  then Draft (SetNewCompanyUrl (searchQuery st))
       :: map Draft (handleAddCompany st detect)
  else [].

(** ** What the handler is specified against *)

(** The detection never answers: [fetch], or [response.json()] of an [ok]
    response, never settles. *)
Definition detectionUnsettled (r : fetch_result) : Prop :=
  r = Unsettled \/ r = Response true JsonUnsettled.

(** The detection answered and did not succeed: a rejected request, a
    response that is not [ok], a body that is not JSON or is [null]. *)
Definition detectionFailed (r : fetch_result) : Prop :=
  ~ detectionUnsettled r /\ forall v, r <> Response true (JsonValue v).

(** The effects of a handler up to its [await fetch(...)], and the ones
    after it. *)
Fixpoint beforeAwait (es : list effect) : list effect :=
  match es with
  | [] => []
  | Fetch u :: _ => [Fetch u]
  | e :: rest => e :: beforeAwait rest
  end.

Fixpoint afterAwait (es : list effect) : list effect :=
  match es with
  | [] => []
  | Fetch _ :: rest => rest
  | _ :: rest => afterAwait rest
  end.

(** The six ways an invocation goes. *)
Inductive attempt (st : State) (detect : string -> fetch_result)
  : list effect -> Prop :=
| attempt_ignored :
    Str.trim (newCompanyUrl st) = "" ->
    attempt st detect []
| attempt_unparsable :
    Str.trim (newCompanyUrl st) <> "" ->
    normalizeDomain (newCompanyUrl st) = None ->
    attempt st detect
      [SetIsDetecting true; SetDetectionError None; ConsoleError;
       SetDetectionError (Some "Failed to detect cloud provider. Please try again.");
       SetIsDetecting false]
| attempt_duplicate d :
    Str.trim (newCompanyUrl st) <> "" ->
    normalizeDomain (newCompanyUrl st) = Some d ->
    d ∈ map domain (allCompanies st) ->
    attempt st detect
      [SetIsDetecting true; SetDetectionError None;
       SetDetectionError (Some "Company already exists");
       SetIsDetecting false; SetIsDetecting false]
| attempt_failed d :
    Str.trim (newCompanyUrl st) <> "" ->
    normalizeDomain (newCompanyUrl st) = Some d ->
    d ∉ map domain (allCompanies st) ->
    detectionFailed (detect (Str.trim (newCompanyUrl st))) ->
    attempt st detect
      [SetIsDetecting true; SetDetectionError None;
       Fetch (Str.trim (newCompanyUrl st)); ConsoleError;
       SetDetectionError (Some "Failed to detect cloud provider. Please try again.");
       SetIsDetecting false]
| attempt_waiting d :
    Str.trim (newCompanyUrl st) <> "" ->
    normalizeDomain (newCompanyUrl st) = Some d ->
    d ∉ map domain (allCompanies st) ->
    detectionUnsettled (detect (Str.trim (newCompanyUrl st))) ->
    attempt st detect
      [SetIsDetecting true; SetDetectionError None;
       Fetch (Str.trim (newCompanyUrl st))]
| attempt_added d v :
    Str.trim (newCompanyUrl st) <> "" ->
    normalizeDomain (newCompanyUrl st) = Some d ->
    d ∉ map domain (allCompanies st) ->
    detect (Str.trim (newCompanyUrl st)) = Response true (JsonValue v) ->
    attempt st detect
      [SetIsDetecting true; SetDetectionError None;
       Fetch (Str.trim (newCompanyUrl st));
       AppendCustomCompany
         {| name := formatName (firstLabel d); symbol := "CUSTOM";
            domain := d; provider := v |};
       SetNewCompanyUrl ""; SetIsDetecting false].

(** The companies counted under a key of [counts]. *)
Definition companiesOf (key : string) (st : State) : list Company :=
  List.filter (fun c => String.eqb (toPropertyKey (provider c)) key)
              (allCompanies st).

(** What the counts object holds under [key] once [n] companies have given
    that key: nothing before the first one, and never anything under
    [__proto__]; under a key inherited from [Object.prototype] the text of
    the inherited value followed by [n] digits [1]; else the number [n]. *)
Definition countOf (key : string) (n : nat) : option Obj.count :=
  if Nat.eqb n 0 || String.eqb key "__proto__" then None
  else if Obj.inherited key then Some (Obj.Text key n)
  else Some (Obj.Number n).

(** The keys of the catalog, company by company. *)
Definition providerKeys (st : State) : list string :=
  map (fun c => toPropertyKey (provider c)) (allCompanies st).

(** The sum of the values of the slices; [None] when some value is not a
    number. *)
Definition sumValues (slices : list Pie.slice) : option nat :=
  foldr (fun s acc => plusNumbers (Obj.number (Pie.value s)) acc) (Some 0) slices.


(** * Properties *)

(** ** Strings *)


Lemma append_nil_l (b : string) : "" +:+ b = b.
Proof. reflexivity. Qed.

Lemma append_cons (c : ascii) (a b : string) :
  String c a +:+ b = String c (a +:+ b).
Proof. reflexivity. Qed.

Lemma append_assoc (a b c : string) : (a +:+ b) +:+ c = a +:+ b +:+ c.
Proof.
  induction a as [|x a IH]; [done|]. rewrite !append_cons. by f_equal.
Qed.

Lemma append_empty_r (a : string) : a +:+ "" = a.
Proof.
  induction a as [|x a IH]; [done|]. rewrite append_cons. by f_equal.
Qed.

Lemma startsWith_empty s : Str.startsWith s "" = true.
Proof. by destruct s. Qed.

Lemma startsWith_spec s p :
  Str.startsWith s p = true <-> exists suf, s = p +:+ suf.
Proof.
  revert s. induction p as [|a p IH]; intros s.
  - rewrite startsWith_empty. split; [intros _; by exists s | done].
  - destruct s as [|b s]; simpl.
    + split; [done | intros [suf Hs]; discriminate Hs].
    + destruct (Ascii.eqb_spec a b) as [->|Hab].
      * rewrite IH. split; intros [suf Hs]; exists suf.
        -- by rewrite append_cons, Hs.
        -- rewrite append_cons in Hs. by injection Hs.
      * split; [done | intros [suf Hs]].
        rewrite append_cons in Hs. injection Hs. congruence.
Qed.

Lemma includes_unfold s q :
  Str.includes s q =
    if Str.startsWith s q then true
    else match s with
         | EmptyString => false
         | String _ s' => Str.includes s' q
         end.
Proof. by destruct s. Qed.

Lemma includes_spec s q : Str.includes s q = true <-> Str.occurs_in q s.
Proof.
  unfold Str.occurs_in. split.
  - induction s as [|c s IH]; rewrite includes_unfold;
      destruct (Str.startsWith _ q) eqn:Hq; try done.
    + intros _. apply startsWith_spec in Hq as [suf Hq]. by exists "", suf.
    + intros _. apply startsWith_spec in Hq as [suf Hq]. by exists "", suf.
    + intros (pre & suf & ->)%IH. by exists (String c pre), suf.
  - intros (pre & suf & ->). induction pre as [|c pre IH];
      rewrite includes_unfold.
    + assert (Str.startsWith ("" +:+ q +:+ suf) q = true) as ->; [|done].
      apply startsWith_spec. by exists suf.
    + rewrite append_cons. by destruct (Str.startsWith _ q).
Qed.

Lemma includes_empty s : Str.includes s "" = true.
Proof. destruct s; simpl; done. Qed.

Lemma falsy_spec s : Str.falsy s = true <-> s = "".
Proof. by destruct s. Qed.

Lemma unset_set_to p : unset p = false <-> exists s, set_to p s.
Proof.
  unfold set_to. destruct p as [[|c s]|]; simpl.
  - split; [done | intros (s & [= <-] & Hs); done].
  - split; [intros _; by eexists | done].
  - split; [done | intros (s & Hs & _); done].
Qed.

Lemma strict_eq_spec v s : strict_eq v s = true <-> v = JString s.
Proof.
  destruct v as [|t]; simpl; [done|].
  rewrite String.eqb_eq. split; congruence.
Qed.


(** ** The views *)

Lemma filter_sublist {A} (f : A -> bool) (l : list A) : sublist (List.filter f l) l.
Proof.
  induction l as [|x l IH]; simpl; [constructor|].
  destruct (f x); by constructor.
Qed.

Lemma matchesProvider_spec p c :
  unset p || strict_eq_opt (provider c) p = true
  <-> (forall s, set_to p s -> provider c = JString s).
Proof.
  unfold set_to. destruct p as [[|a s]|]; simpl.
  - split; [intros _ s [[= <-] Hs]; done | done].
  - rewrite strict_eq_spec. split.
    + intros Hc s' [[= <-] _]. done.
    + intros Hc. by apply Hc.
  - split; [intros _ s [Hs _]; done | done].
Qed.

(** C1. [filteredCompanies] is sound and complete for the match predicate:
    a company is in the filtered list exactly when it is in the catalog, its
    name contains the query (both in lower case) and, when a provider filter
    is set, its provider is that one. The filtered list keeps the order of
    the catalog, and under the empty query every company passes the search
    test. A filter holding the empty string counts as not set, as [null]. *)
Theorem filteredCompanies_sound_complete (st : State) :
  (forall c, c ∈ filteredCompanies st
             <-> c ∈ allCompanies st
                 /\ matches (searchQuery st) (selectedProvider st) c)
  /\ sublist (filteredCompanies st) (allCompanies st)
  /\ (forall c, matches "" (selectedProvider st) c
                <-> forall s, set_to (selectedProvider st) s -> provider c = JString s).
Proof.
  split; [|split].
  - intros c. unfold filteredCompanies, matches.
    rewrite !list_elem_of_In, filter_In, andb_true_iff.
    by rewrite includes_spec, matchesProvider_spec.
  - apply filter_sublist.
  - intros c. unfold matches. rewrite toLowerCase_empty.
    split; [by intros [_ Hp] | intros Hp; split; [|done]].
    apply includes_spec, includes_empty.
Qed.

Lemma filter_ext_bool {A} (f g : A -> bool) (l : list A) :
  (forall x, f x = g x) -> List.filter f l = List.filter g l.
Proof.
  intros Hfg. induction l as [|x l IH]; simpl; [done|].
  rewrite Hfg, IH. done.
Qed.

Lemma strict_eq_decide v s :
  strict_eq v s = bool_decide (v = JString s).
Proof.
  destruct (strict_eq v s) eqn:Hv; symmetry.
  - apply bool_decide_eq_true, strict_eq_spec, Hv.
  - apply bool_decide_eq_false. rewrite <- strict_eq_spec. congruence.
Qed.

(** C2. While a provider is hovered, the displayed list is the whole catalog
    restricted to the companies of that provider, whatever the search query
    and the sticky filter are; while none is hovered, it is the filtered
    list. *)
Theorem displayedCompanies_hover_priority (st : State) :
  (forall h, set_to (hoveredProvider st) h ->
     displayedCompanies st
       = List.filter (fun c => bool_decide (provider c = JString h)) (allCompanies st)
     /\ forall q p,
          displayedCompanies (with_searchQuery q (with_selectedProvider p st))
            = displayedCompanies st)
  /\ (hoveredProvider st = None -> displayedCompanies st = filteredCompanies st).
Proof.
  unfold displayedCompanies. split.
  - intros h [Hh Hne]. simpl. rewrite Hh. simpl.
    destruct h as [|a h]; [done|]. simpl. split; [|done].
    apply filter_ext_bool. intros c. apply strict_eq_decide.
  - intros ->. done.
Qed.

(** A hovered or selected provider that is the empty string is falsy: the
    views treat it as [null]. *)
Lemma empty_provider_is_unset (st : State) :
  (hoveredProvider st = Some "" -> displayedCompanies st = filteredCompanies st)
  /\ (selectedProvider st = Some "" ->
      filteredCompanies st = filteredCompanies (with_selectedProvider None st)).
Proof.
  split.
  - intros Hh. unfold displayedCompanies. by rewrite Hh.
  - intros Hp. unfold filteredCompanies. simpl. by rewrite Hp.
Qed.

(** *** Counts *)

Lemma plusNumbers_swap a b acc :
  plusNumbers a (plusNumbers b acc) = plusNumbers b (plusNumbers a acc).
Proof.
  destruct a as [x|], b as [y|], acc as [z|]; simpl; try done.
  f_equal. lia.
Qed.

Lemma sumCounts_empty : sumCounts ∅ = Some 0.
Proof. apply map_fold_empty. Qed.

Lemma sumCounts_delete (counts : gmap string Obj.count) key c :
  counts !! key = Some c ->
  sumCounts counts = plusNumbers (Obj.number c) (sumCounts (delete key counts)).
Proof.
  intros Hk. unfold sumCounts.
  rewrite (map_fold_delete_L _ _ key c counts); [done | | done].
  intros. apply plusNumbers_swap.
Qed.

Lemma sumCounts_insert (counts : gmap string Obj.count) key c :
  sumCounts (<[key := c]> counts)
  = plusNumbers (Obj.number c) (sumCounts (delete key counts)).
Proof.
  rewrite (sumCounts_delete _ key c) by apply lookup_insert_eq.
  by rewrite delete_insert_eq.
Qed.

(** *** The counts, key by key *)

Lemma countCompany_lookup m c k :
  countCompany m c !! k
  = if String.eqb (toPropertyKey (provider c)) k && negb (String.eqb k "__proto__")
    then Some (Obj.increment (Obj.read_of (m !! k) k))
    else m !! k.
Proof.
  unfold countCompany.
  destruct (String.eqb_spec (toPropertyKey (provider c)) k) as [->|Hne]; simpl.
  - destruct (String.eqb k "__proto__"); simpl; [done|].
    by rewrite lookup_insert_eq.
  - destruct (String.eqb _ "__proto__"); [done|].
    by rewrite lookup_insert_ne.
Qed.

Lemma countOf_succ k n :
  String.eqb k "__proto__" = false ->
  Some (Obj.increment (Obj.read_of (countOf k n) k)) = countOf k (n + 1).
Proof.
  intros Hk. unfold countOf. rewrite Hk, !orb_false_r.
  replace (n + 1 =? 0) with false by (symmetry; apply Nat.eqb_neq; lia).
  destruct n as [|n]; simpl; destruct (Obj.inherited k); simpl; done.
Qed.

Lemma foldl_countCompany_lookup l k :
  foldl countCompany ∅ l !! k
  = countOf k (length (List.filter
                         (fun c => String.eqb (toPropertyKey (provider c)) k) l)).
Proof.
  induction l as [|c l IH] using rev_ind.
  - simpl. rewrite lookup_empty. unfold countOf. done.
  - rewrite foldl_app, List.filter_app, length_app. simpl.
    rewrite countCompany_lookup, IH.
    destruct (String.eqb (toPropertyKey (provider c)) k); simpl.
    + destruct (String.eqb k "__proto__") eqn:Hk; simpl.
      * unfold countOf. by rewrite Hk, !orb_true_r.
      * by apply countOf_succ.
    + by rewrite Nat.add_0_r.
Qed.

Lemma providerCounts_countOf st key :
  providerCounts st !! key = countOf key (length (companiesOf key st)).
Proof. apply foldl_countCompany_lookup. Qed.

Lemma orZero_countOf k n :
  Obj.inherited k = false ->
  Obj.orZero (Obj.read_of (countOf k n) k) = Some n.
Proof.
  intros Hk. unfold countOf. rewrite Hk.
  assert (String.eqb k "__proto__" = false) as ->.
  { destruct (String.eqb_spec k "__proto__") as [->|]; done. }
  destruct n; simpl; [by rewrite Hk | done].
Qed.

Lemma providerCounts_orZero st key :
  Obj.inherited key = false ->
  Obj.orZero (Obj.read_of (providerCounts st !! key) key)
  = Some (length (companiesOf key st)).
Proof. intros Hk. rewrite providerCounts_countOf. by apply orZero_countOf. Qed.

(** *** The sum of the counts *)

Lemma sumCounts_countCompany l c :
  let m := foldl countCompany ∅ l in
  let k := toPropertyKey (provider c) in
  sumCounts (countCompany m c)
  = if String.eqb k "__proto__" then sumCounts m
    else if Obj.inherited k then None
    else S <$> sumCounts m.
Proof.
  intros m k. unfold countCompany. fold k.
  destruct (String.eqb k "__proto__") eqn:Hp; [done|].
  rewrite sumCounts_insert.
  pose proof (foldl_countCompany_lookup l k) as Hk. fold m in Hk.
  destruct (m !! k) as [c0|] eqn:Hm.
  - rewrite (sumCounts_delete m k c0 Hm).
    unfold countOf in Hk. rewrite Hp, orb_false_r in Hk.
    destruct (_ =? 0); [done|].
    destruct (Obj.inherited k) eqn:Hi; injection Hk as ->; simpl; [done|].
    destruct (sumCounts (delete k m)); simpl; [f_equal; lia | done].
  - rewrite delete_id by done. simpl.
    destruct (Obj.inherited k); simpl; [done|].
    by destruct (sumCounts m).
Qed.

Lemma sumCounts_foldl l :
  sumCounts (foldl countCompany ∅ l)
  = if existsb (fun k => Obj.inherited k && negb (String.eqb k "__proto__"))
               (map (fun c => toPropertyKey (provider c)) l)
    then None
    else Some (length (List.filter (fun k => negb (String.eqb k "__proto__"))
                         (map (fun c => toPropertyKey (provider c)) l))).
Proof.
  induction l as [|c l IH] using rev_ind; [apply sumCounts_empty|].
  rewrite foldl_app. simpl. rewrite sumCounts_countCompany, IH.
  rewrite map_app, existsb_app, List.filter_app, length_app. simpl.
  destruct (String.eqb (toPropertyKey (provider c)) "__proto__"); simpl.
  - by rewrite andb_false_r, !orb_false_r, Nat.add_0_r.
  - rewrite andb_true_r, orb_false_r.
    destruct (Obj.inherited (toPropertyKey (provider c))); simpl.
    + by rewrite orb_true_r.
    + rewrite orb_false_r. destruct (existsb _ _); simpl; [done|].
      f_equal. lia.
Qed.

Lemma sumCounts_providerCounts st :
  (forall k, k ∈ providerKeys st -> Obj.inherited k = false) ->
  sumCounts (providerCounts st) = Some (length (allCompanies st)).
Proof.
  intros Hno. unfold providerCounts. rewrite sumCounts_foldl.
  fold (providerKeys st).
  assert (forall ks : list string,
            (forall k, k ∈ ks -> Obj.inherited k = false) ->
            existsb (fun k => Obj.inherited k && negb (String.eqb k "__proto__")) ks
            = false
            /\ List.filter (fun k => negb (String.eqb k "__proto__")) ks = ks)
    as Hks.
  { induction ks as [|k ks IH]; intros Hall; [done|]. simpl.
    assert (Obj.inherited k = false) as Hk by (apply Hall; by left).
    rewrite Hk. simpl.
    assert (String.eqb k "__proto__" = false) as ->.
    { destruct (String.eqb_spec k "__proto__") as [->|]; done. }
    simpl. destruct IH as [-> ->]; [|done].
    intros k' Hk'. apply Hall. by right. }
  destruct (Hks _ Hno) as [-> ->]. unfold providerKeys. by rewrite length_map.
Qed.

Lemma keys_not_inherited (ks : list string) :
  existsb (fun k => Obj.inherited k && negb (String.eqb k "__proto__")) ks = false ->
  length (List.filter (fun k => negb (String.eqb k "__proto__")) ks) = length ks ->
  forall k, k ∈ ks -> Obj.inherited k = false.
Proof.
  induction ks as [|k ks IH]; intros Hbad Hlen k' Hk'.
  - by apply elem_of_nil in Hk'.
  - simpl in Hbad, Hlen. apply orb_false_iff in Hbad as [Hk Hbad].
    pose proof (List.filter_length_le
                  (fun k => negb (String.eqb k "__proto__")) ks) as Hle.
    destruct (String.eqb k "__proto__"); simpl in Hlen; [lia|].
    rewrite andb_true_r in Hk.
    apply elem_of_cons in Hk' as [->|Hk']; [done|].
    apply IH; [done | lia | done].
Qed.

(** C7. The counts are a function of the whole catalog: they do not change
    with the search query, the sticky filter or the hovered provider. Their
    values add up to the number of companies of the catalog exactly when no
    provider of the catalog names a property of [Object.prototype]: under
    such a key ([constructor], [toString], ...) the object [{}] holds a
    string and the sum is not a number, and a company whose provider is
    [__proto__] is not counted at all. *)
Theorem providerCounts_sum_iff_no_inherited_key (st : State) :
  (sumCounts (providerCounts st) = Some (length (allCompanies st))
   <-> forall k, k ∈ providerKeys st -> Obj.inherited k = false)
  /\ forall q p h,
       providerCounts
         (with_searchQuery q (with_selectedProvider p (with_hoveredProvider h st)))
       = providerCounts st.
Proof.
  split; [|done]. split; [|apply sumCounts_providerCounts].
  unfold providerCounts. rewrite sumCounts_foldl. fold (providerKeys st).
  replace (length (allCompanies st)) with (length (providerKeys st))
    by (unfold providerKeys; apply length_map).
  destruct (existsb _ _) eqn:Hbad; [done|]. intros [= Hlen].
  by apply keys_not_inherited.
Qed.

(** ** The handler *)

Lemma split_head d : head (Str.split d ".") = Some (firstLabel d).
Proof.
  unfold firstLabel. induction d as [|c d IH]; simpl; [done|].
  destruct (Ascii.eqb c "."); [done|].
  destruct (Str.split d ".") as [|piece rest]; [done|].
  simpl in *. congruence.
Qed.

Lemma duplicate_check st d :
  existsb (fun c => String.eqb c.(domain) d) (allCompanies st) = true
  <-> d ∈ map domain (allCompanies st).
Proof.
  rewrite existsb_exists, list_elem_of_fmap. split.
  - intros (c & Hc & Heq). apply String.eqb_eq in Heq.
    exists c. by rewrite list_elem_of_In.
  - intros (c & -> & Hc). exists c. rewrite <- list_elem_of_In.
    by rewrite String.eqb_refl.
Qed.

Lemma falsy_false s : s <> "" -> Str.falsy s = false.
Proof. by destruct s. Qed.

(** An empty input: the handler returns at once. *)
Lemma handleAddCompany_empty st detect :
  Str.trim (newCompanyUrl st) = "" -> handleAddCompany st detect = [].
Proof. intros Hu. unfold handleAddCompany. by rewrite Hu. Qed.

(** A duplicate: the message, the flag lowered (in the branch and again in
    [finally]), and nothing else. *)
Lemma handleAddCompany_duplicate st detect d :
  Str.trim (newCompanyUrl st) <> "" ->
  normalizeDomain (newCompanyUrl st) = Some d ->
  d ∈ map domain (allCompanies st) ->
  handleAddCompany st detect
  = [SetIsDetecting true; SetDetectionError None;
     SetDetectionError (Some "Company already exists");
     SetIsDetecting false; SetIsDetecting false].
Proof.
  intros Hu Hd Hin. apply duplicate_check in Hin.
  unfold handleAddCompany, tryBlock. rewrite (falsy_false _ Hu), Hd. simpl.
  by rewrite Hin.
Qed.

(** A successful detection of a new domain. *)
Lemma handleAddCompany_success st detect d v :
  Str.trim (newCompanyUrl st) <> "" ->
  normalizeDomain (newCompanyUrl st) = Some d ->
  d ∉ map domain (allCompanies st) ->
  detect (Str.trim (newCompanyUrl st)) = Response true (JsonValue v) ->
  handleAddCompany st detect
  = [SetIsDetecting true; SetDetectionError None;
     Fetch (Str.trim (newCompanyUrl st));
     AppendCustomCompany
       {| name := formatName (firstLabel d); symbol := "CUSTOM";
          domain := d; provider := v |};
     SetNewCompanyUrl ""; SetIsDetecting false].
Proof.
  intros Hu Hd Hin Hresp.
  assert (existsb (fun c => String.eqb c.(domain) d) (allCompanies st) = false)
    as Hdup.
  { destruct (existsb _ _) eqn:He; [|done]. by apply duplicate_check in He. }
  unfold handleAddCompany, tryBlock. rewrite (falsy_false _ Hu), Hd. simpl.
  rewrite Hdup. simpl. rewrite Hresp. simpl. rewrite split_head. done.
Qed.

(** C3. A submission that passes the guard on the empty input and whose
    normalized domain is already in the catalog (seed or session-added)
    issues no detection request, ends with the message "Company already
    exists" and leaves the catalog as it was, so its length too; the loading
    flag is lowered again. *)
Theorem handleAddCompany_rejects_duplicate st detect d :
  Str.trim (newCompanyUrl st) <> "" ->
  normalizeDomain (newCompanyUrl st) = Some d ->
  d ∈ map domain (allCompanies st) ->
  let st' := run st (handleAddCompany st detect) in
  requests (handleAddCompany st detect) = []
  /\ detectionError st' = Some "Company already exists"
  /\ allCompanies st' = allCompanies st
  /\ length (allCompanies st') = length (allCompanies st)
  /\ isDetecting st' = false.
Proof.
  intros Hu Hd Hin. simpl.
  rewrite (handleAddCompany_duplicate st detect d Hu Hd Hin). done.
Qed.

(** C6. A successful detection of an input whose normalized domain is new
    issues one request, carrying the trimmed input, and appends exactly one
    company: its name is the first dot-separated label of the normalized
    domain with the first code unit passed through [toUpperCase] and the rest
    unchanged, its symbol is "CUSTOM", its domain is the normalized domain
    and its provider is the answer of the detector. The draft is cleared and
    no error is left. *)
Theorem handleAddCompany_appends_detected st detect d v :
  Str.trim (newCompanyUrl st) <> "" ->
  normalizeDomain (newCompanyUrl st) = Some d ->
  d ∉ map domain (allCompanies st) ->
  detect (Str.trim (newCompanyUrl st)) = Response true (JsonValue v) ->
  let st' := run st (handleAddCompany st detect) in
  let label := firstLabel d in
  customCompanies st'
  = customCompanies st
    ++ [{| name := toUpperCase (Str.charAt0 label) +:+ Str.drop 1 label;
           symbol := "CUSTOM"; domain := d; provider := v |}]
  /\ requests (handleAddCompany st detect) = [Str.trim (newCompanyUrl st)]
  /\ newCompanyUrl st' = ""
  /\ detectionError st' = None
  /\ isDetecting st' = false.
Proof.
  intros Hu Hd Hin Hresp. simpl.
  rewrite (handleAddCompany_success st detect d v Hu Hd Hin Hresp). done.
Qed.

(** C9. The provider of the appended company is the value of the [provider]
    field of the response as it came: any string, in the enumeration of
    providers or not, and [undefined] when the field is absent. *)
Theorem handleAddCompany_records_provider_verbatim st detect d v :
  Str.trim (newCompanyUrl st) <> "" ->
  normalizeDomain (newCompanyUrl st) = Some d ->
  d ∉ map domain (allCompanies st) ->
  detect (Str.trim (newCompanyUrl st)) = Response true (JsonValue v) ->
  provider <$> last (customCompanies (run st (handleAddCompany st detect)))
  = Some v.
Proof.
  intros Hu Hd Hin Hresp.
  rewrite (handleAddCompany_success st detect d v Hu Hd Hin Hresp). simpl.
  by rewrite last_snoc.
Qed.

(** C8, as the code has it. An attempt whose trimmed input is empty returns
    before anything else: no effect at all, so no request, no message, and
    the state, with its [detectionError], is what it was. Every other attempt
    begins by raising the loading flag and setting [detectionError] to
    [null]; the duplicate check and the request come after. *)
Theorem handleAddCompany_clears_error_of_nonempty_attempt st detect :
  (Str.trim (newCompanyUrl st) = "" ->
   handleAddCompany st detect = []
   /\ run st (handleAddCompany st detect) = st)
  /\ (Str.trim (newCompanyUrl st) <> "" ->
      exists rest,
        handleAddCompany st detect
        = SetIsDetecting true :: SetDetectionError None :: rest
        /\ detectionError (run st [SetIsDetecting true; SetDetectionError None])
           = None).
Proof.
  split.
  - intros Hu. by rewrite handleAddCompany_empty.
  - intros Hu. unfold handleAddCompany. rewrite (falsy_false _ Hu).
    destruct (tryBlock st detect) as [es c]. simpl. eauto.
Qed.

(** *** Normalization *)

Lemma startsWith_false s p :
  (forall rest, s <> p +:+ rest) -> Str.startsWith s p = false.
Proof.
  intros Hs. destruct (Str.startsWith s p) eqn:Hp; [|done].
  apply startsWith_spec in Hp as [rest Hp]. by destruct (Hs rest).
Qed.

(** C10. The test for a scheme compares code units: an input whose trimmed
    form does not begin with the lower-case literal [http://] or [https://]
    is not given to the URL parser; its trimmed form is taken as the host, so
    a scheme written in another case stays in the domain. *)
Theorem normalizeDomain_scheme_case_sensitive raw :
  (forall rest, Str.trim raw <> ("http://" +:+ rest)) ->
  (forall rest, Str.trim raw <> ("https://" +:+ rest)) ->
  normalizeDomain raw = Some (Str.replace (Str.trim raw) "www." "").
Proof.
  intros Hhttp Hhttps. unfold normalizeDomain.
  by rewrite (startsWith_false _ _ Hhttp), (startsWith_false _ _ Hhttps).
Qed.

(** An input that begins with one of the two literals goes through the URL
    parser. *)
Lemma normalizeDomain_scheme raw rest :
  Str.trim raw = "http://" +:+ rest \/ Str.trim raw = "https://" +:+ rest ->
  normalizeDomain raw
  = (fun host => Str.replace host "www." "") <$> URL_hostname (Str.trim raw).
Proof.
  intros Hs. unfold normalizeDomain.
  assert (Str.startsWith (Str.trim raw) "http://"
          || Str.startsWith (Str.trim raw) "https://" = true) as ->; [|done].
  apply orb_true_iff. rewrite !startsWith_spec. destruct Hs; eauto.
Qed.

Lemma normalizeDomain_upper_case_scheme :
  normalizeDomain "HTTPS://example.com" = Some "HTTPS://example.com".
Proof. reflexivity. Qed.

(** A leading [www.] is removed. *)
Lemma replace_leading_www s : Str.replace ("www." +:+ s) "www." "" = s.
Proof. vm_compute. by destruct s. Qed.

(** C5. [replace] removes the first [www.] wherever it stands: one that is
    not a prefix of the host is removed as well. *)
Theorem normalizeDomain_removes_inner_www :
  normalizeDomain "awww.com" = Some "acom"
  /\ normalizeDomain "api.www.example.com" = Some "api.example.com".
Proof. split; reflexivity. Qed.

(** *** The "Big 3" percentage *)

(** The three keys are not inherited: what is read under them is a number
    or [undefined], and the sum is the number of companies of the three. *)
Lemma big3Sum_companiesOf st :
  big3Sum st = Some (length (companiesOf "AWS" st)
                     + length (companiesOf "Azure" st)
                     + length (companiesOf "GCP" st)).
Proof.
  unfold big3Sum. cbv zeta. by rewrite !providerCounts_orZero by done.
Qed.

Lemma big3Count_companiesOf st :
  big3Count st = length (companiesOf "AWS" st)
                 + length (companiesOf "Azure" st)
                 + length (companiesOf "GCP" st).
Proof. unfold big3Count. by rewrite big3Sum_companiesOf. Qed.

Lemma big3Percent_percentOf st :
  big3Percent st = Num.percentOf (big3Count st) (length (allCompanies st)).
Proof.
  unfold big3Percent, big3Count. by rewrite big3Sum_companiesOf.
Qed.

Lemma big3Count_le st : big3Count st <= length (allCompanies st).
Proof.
  rewrite big3Count_companiesOf. unfold companiesOf.
  induction (allCompanies st) as [|c l IH]; simpl; [lia|].
  destruct (String.eqb_spec (toPropertyKey (provider c)) "AWS") as [Ha|Ha],
    (String.eqb_spec (toPropertyKey (provider c)) "Azure") as [Hz|Hz],
    (String.eqb_spec (toPropertyKey (provider c)) "GCP") as [Hg|Hg];
    simpl; try lia; congruence.
Qed.

Lemma eqb_eq x y : Num.eqb x y = true -> x = y.
Proof.
  destruct x as [a|a| |a m e], y as [b|b| |b m' e']; simpl; try done.
  - by intros ->%Bool.eqb_prop.
  - by intros ->%Bool.eqb_prop.
  - intros [[->%Bool.eqb_prop ->%Pos.eqb_eq]%andb_true_iff ->%Z.eqb_eq]%andb_true_iff.
    done.
Qed.

Lemma nearestPercentb_sound k n :
  0 < n -> Num.nearestPercentb k n = true ->
  exists r, Num.percentOf k n = Num.ofZ r /\ Num.nearestPercent k n r.
Proof.
  intros Hn. unfold Num.nearestPercentb, Num.nearestPercent.
  set (num := (200 * Z.of_nat k + Z.of_nat n)%Z).
  set (den := (2 * Z.of_nat n)%Z).
  assert (0 < den)%Z as Hden by lia.
  pose proof (Z.div_mod num den ltac:(lia)) as Hdm.
  pose proof (Z.mod_pos_bound num den Hden) as Hmod.
  intros [Hx|[Htie Hx]%andb_true_iff]%orb_true_iff; apply eqb_eq in Hx.
  - exists (num / den)%Z. split; [done|]. lia.
  - exists (num / den - 1)%Z. split; [done|]. apply Z.eqb_eq in Htie. lia.
Qed.

Lemma nearestUpTo_sound bound k n :
  Num.nearestUpTo bound = true -> 0 < n <= bound -> k <= n ->
  Num.nearestPercentb k n = true.
Proof.
  unfold Num.nearestUpTo. rewrite forallb_forall. intros Hall Hn Hk.
  specialize (Hall (n - 1)). rewrite in_seq, forallb_forall in Hall.
  specialize (Hall ltac:(lia) k). rewrite in_seq in Hall.
  replace (S (n - 1)) with n in Hall by lia. apply Hall. lia.
Qed.

Lemma nearestUpTo_100 : Num.nearestUpTo 100 = true.
Proof. vm_compute. reflexivity. Qed.

Lemma percentOf_nearest k n :
  0 < n <= 100 -> k <= n ->
  exists r, Num.percentOf k n = Num.ofZ r /\ Num.nearestPercent k n r.
Proof.
  intros Hn Hk. apply nearestPercentb_sound; [lia|].
  by apply (nearestUpTo_sound 100 k n nearestUpTo_100).
Qed.

(** C4, as the code has it. With [big3] the number of companies of the
    catalog whose provider is AWS, Azure or GCP and [total] the number of
    all of them, the percentage is [Math.round] of the double
    [big3 / total * 100], the quotient taken first, and there is no guard on
    [total]: for an empty catalog the quotient is [0 / 0] and the percentage
    is [NaN]. *)
Theorem big3Percent_unguarded st :
  let big3 := length (companiesOf "AWS" st) + length (companiesOf "Azure" st)
              + length (companiesOf "GCP" st) in
  let total := length (allCompanies st) in
  big3Percent st
  = Num.round (Num.mul (Num.div (Num.ofNat big3) (Num.ofNat total)) (Num.ofNat 100))
  /\ big3 <= total
  /\ (total = 0 -> big3Percent st = Num.NaN).
Proof.
  intros big3 total.
  assert (big3Count st = big3) as Hk by apply big3Count_companiesOf.
  split; [|split].
  - by rewrite big3Percent_percentOf, Hk.
  - rewrite <- Hk. apply big3Count_le.
  - intros Hn. rewrite big3Percent_percentOf, Hk. fold total. rewrite Hn.
    assert (big3 = 0) as ->.
    { pose proof (big3Count_le st) as Hle. rewrite Hk in Hle. fold total in Hle.
      lia. }
    reflexivity.
Qed.

(** ** The handler, on every path *)

Lemma handleAddCompany_unparsable st detect :
  Str.trim (newCompanyUrl st) <> "" ->
  normalizeDomain (newCompanyUrl st) = None ->
  handleAddCompany st detect
  = [SetIsDetecting true; SetDetectionError None; ConsoleError;
     SetDetectionError (Some "Failed to detect cloud provider. Please try again.");
     SetIsDetecting false].
Proof.
  intros Hu Hd. unfold handleAddCompany, tryBlock.
  by rewrite (falsy_false _ Hu), Hd.
Qed.

Lemma handleAddCompany_failure st detect d :
  Str.trim (newCompanyUrl st) <> "" ->
  normalizeDomain (newCompanyUrl st) = Some d ->
  d ∉ map domain (allCompanies st) ->
  detectionFailed (detect (Str.trim (newCompanyUrl st))) ->
  handleAddCompany st detect
  = [SetIsDetecting true; SetDetectionError None;
     Fetch (Str.trim (newCompanyUrl st)); ConsoleError;
     SetDetectionError (Some "Failed to detect cloud provider. Please try again.");
     SetIsDetecting false].
Proof.
  intros Hu Hd Hin Hfail.
  assert (existsb (fun c => String.eqb c.(domain) d) (allCompanies st) = false)
    as Hdup.
  { destruct (existsb _ _) eqn:He; [|done]. by apply duplicate_check in He. }
  unfold handleAddCompany, tryBlock. rewrite (falsy_false _ Hu), Hd. simpl.
  rewrite Hdup. simpl.
  destruct Hfail as [Hsettled Hfail].
  destruct (detect (Str.trim (newCompanyUrl st))) as [|[|] [| |v|]|]; simpl;
    rewrite ?split_head; try done.
  - by destruct (Hfail v).
  - destruct Hsettled. by right.
  - destruct Hsettled. by left.
Qed.

Lemma handleAddCompany_unsettled st detect d :
  Str.trim (newCompanyUrl st) <> "" ->
  normalizeDomain (newCompanyUrl st) = Some d ->
  d ∉ map domain (allCompanies st) ->
  detectionUnsettled (detect (Str.trim (newCompanyUrl st))) ->
  handleAddCompany st detect
  = [SetIsDetecting true; SetDetectionError None;
     Fetch (Str.trim (newCompanyUrl st))].
Proof.
  intros Hu Hd Hin Hwait.
  assert (existsb (fun c => String.eqb c.(domain) d) (allCompanies st) = false)
    as Hdup.
  { destruct (existsb _ _) eqn:He; [|done]. by apply duplicate_check in He. }
  unfold handleAddCompany, tryBlock. rewrite (falsy_false _ Hu), Hd. simpl.
  rewrite Hdup. simpl.
  by destruct Hwait as [-> | ->].
Qed.

Lemma detectionFailed_dec r :
  detectionFailed r \/ detectionUnsettled r
  \/ exists v, r = Response true (JsonValue v).
Proof.
  destruct r as [|[|] [| |v|]|].
  all: try (left; split; [intros [?|?]; discriminate | intros v'; discriminate]).
  - right. right. by exists v.
  - right. left. by right.
  - right. left. by left.
Qed.

Lemma handleAddCompany_attempt st detect :
  attempt st detect (handleAddCompany st detect).
Proof.
  destruct (decide (Str.trim (newCompanyUrl st) = "")) as [Hu|Hu].
  { rewrite handleAddCompany_empty by done. by constructor. }
  destruct (normalizeDomain (newCompanyUrl st)) as [d|] eqn:Hd.
  2: { rewrite handleAddCompany_unparsable by done. by constructor. }
  destruct (decide (d ∈ map domain (allCompanies st))) as [Hin|Hin].
  { rewrite (handleAddCompany_duplicate st detect d) by done.
    by apply (attempt_duplicate _ _ d). }
  destruct (detectionFailed_dec (detect (Str.trim (newCompanyUrl st))))
    as [Hf|[Hw|[v Hv]]].
  - rewrite (handleAddCompany_failure st detect d) by done.
    by apply (attempt_failed _ _ d).
  - rewrite (handleAddCompany_unsettled st detect d) by done.
    by apply (attempt_waiting _ _ d).
  - rewrite (handleAddCompany_success st detect d v) by done.
    by apply (attempt_added _ _ d v).
Qed.

(** X1. A detection that does not succeed (a rejected request, a response
    that is not [ok], a body that is not JSON or is [null]) costs one request
    and no retry, leaves the generic message, and keeps the catalog and the
    draft as they were. *)
Theorem handleAddCompany_detection_failed st detect d :
  Str.trim (newCompanyUrl st) <> "" ->
  normalizeDomain (newCompanyUrl st) = Some d ->
  d ∉ map domain (allCompanies st) ->
  detectionFailed (detect (Str.trim (newCompanyUrl st))) ->
  let st' := run st (handleAddCompany st detect) in
  requests (handleAddCompany st detect) = [Str.trim (newCompanyUrl st)]
  /\ detectionError st'
     = Some "Failed to detect cloud provider. Please try again."
  /\ customCompanies st' = customCompanies st
  /\ newCompanyUrl st' = newCompanyUrl st
  /\ isDetecting st' = false.
Proof.
  intros Hu Hd Hin Hf. simpl.
  rewrite (handleAddCompany_failure st detect d Hu Hd Hin Hf). done.
Qed.

(** X2. A draft that begins with a scheme and that the URL parser rejects
    ends in the same generic message, without any request. *)
Theorem handleAddCompany_unparsable_url st detect rest :
  Str.trim (newCompanyUrl st) = "http://" +:+ rest
  \/ Str.trim (newCompanyUrl st) = "https://" +:+ rest ->
  URL_hostname (Str.trim (newCompanyUrl st)) = None ->
  let st' := run st (handleAddCompany st detect) in
  requests (handleAddCompany st detect) = []
  /\ detectionError st'
     = Some "Failed to detect cloud provider. Please try again."
  /\ customCompanies st' = customCompanies st
  /\ newCompanyUrl st' = newCompanyUrl st
  /\ isDetecting st' = false.
Proof.
  intros Hs Hurl. simpl.
  assert (Str.trim (newCompanyUrl st) <> "") as Hu.
  { destruct Hs as [-> | ->]; discriminate. }
  rewrite handleAddCompany_unparsable; [done..|].
  by rewrite (normalizeDomain_scheme _ rest Hs), Hurl.
Qed.

(** X3. Whatever the draft and the answer of the detector: an invocation
    issues at most one request, and only for the trimmed draft of its render;
    it appends at most one company, a "CUSTOM" one whose domain was not in the
    catalog, and changes no company already there; it leaves the search, the
    sticky filter and the hover alone; unless it was ignored it ends with
    the loading flag lowered, or it waits for a detector that never answers;
    and when the detector never answers a request that was issued, the
    loading flag stays raised, the error stays cleared, and the catalog and
    the draft are as they were. *)
Theorem handleAddCompany_frame st detect :
  let es := handleAddCompany st detect in
  let st' := run st es in
  (requests es = [] \/ requests es = [Str.trim (newCompanyUrl st)])
  /\ (customCompanies st' = customCompanies st
      \/ exists c, customCompanies st' = customCompanies st ++ [c]
                   /\ symbol c = "CUSTOM"
                   /\ domain c ∉ map domain (allCompanies st))
  /\ searchQuery st' = searchQuery st
  /\ selectedProvider st' = selectedProvider st
  /\ hoveredProvider st' = hoveredProvider st
  /\ (es = [] \/ isDetecting st' = false
      \/ detectionUnsettled (detect (Str.trim (newCompanyUrl st))))
  /\ (detectionUnsettled (detect (Str.trim (newCompanyUrl st))) ->
      requests es <> [] ->
      isDetecting st' = true
      /\ detectionError st' = None
      /\ customCompanies st' = customCompanies st
      /\ newCompanyUrl st' = newCompanyUrl st).
Proof.
  simpl.
  destruct (handleAddCompany_attempt st detect)
    as [| | |d ? ? ? Hf| |d v ? ? ? Hv]; simpl.
  all: repeat match goal with |- _ /\ _ => split end; auto; try done.
  - intros Hw _. by destruct Hf as [Hf _].
  - right. eexists. repeat split; done.
  - intros [Hw|Hw] _; rewrite Hv in Hw; discriminate.
Qed.

(** X4. The domains of the catalog stay pairwise distinct through an
    invocation that runs alone. *)
Theorem handleAddCompany_keeps_domains_unique st detect :
  NoDup (map domain (allCompanies st)) ->
  NoDup (map domain (allCompanies (run st (handleAddCompany st detect)))).
Proof.
  intros Hnd.
  destruct (handleAddCompany_attempt st detect)
    as [| | | | |d v Hu Hd Hin Hresp]; try done.
  unfold allCompanies in *. simpl. rewrite app_assoc, map_app. simpl.
  apply NoDup_app. split; [done|]. split.
  - intros x Hx ->%list_elem_of_singleton. done.
  - apply NoDup_singleton.
Qed.

(** X5. Nothing stops a second invocation while the first awaits the
    detector: started from the render that follows the first one's
    synchronous part, it passes the same duplicate check, and when both
    detections succeed the same company is appended twice. *)
Theorem handleAddCompany_concurrent_duplicates st detect d v :
  Str.trim (newCompanyUrl st) <> "" ->
  normalizeDomain (newCompanyUrl st) = Some d ->
  d ∉ map domain (allCompanies st) ->
  detect (Str.trim (newCompanyUrl st)) = Response true (JsonValue v) ->
  let first := handleAddCompany st detect in
  let second := handleAddCompany (run st (beforeAwait first)) detect in
  let trace := beforeAwait first ++ beforeAwait second
               ++ afterAwait first ++ afterAwait second in
  let c := {| name := formatName (firstLabel d); symbol := "CUSTOM";
              domain := d; provider := v |} in
  requests trace = [Str.trim (newCompanyUrl st); Str.trim (newCompanyUrl st)]
  /\ customCompanies (run st trace) = customCompanies st ++ [c; c]
  /\ ~ NoDup (map domain (allCompanies (run st trace))).
Proof.
  intros Hu Hd Hin Hresp. simpl.
  rewrite (handleAddCompany_success st detect d v Hu Hd Hin Hresp). simpl.
  rewrite (handleAddCompany_success _ detect d v); simpl; try done.
  split; [done|]. split; [by rewrite <- app_assoc|].
  unfold allCompanies. simpl. rewrite <- !app_assoc, !map_app. simpl.
  intros Hnd. apply NoDup_app in Hnd as (_ & _ & Hnd).
  apply NoDup_app in Hnd as (_ & _ & Hnd).
  apply NoDup_cons in Hnd as [Hnot _]. apply Hnot. by left.
Qed.

(** ** The counts, key by key *)

(** X6. Under every key the counts object holds what [countOf] says of the
    number of companies of the catalog whose provider gives that key. For a
    key that [Object.prototype] does not have, this is that number, and the
    key is in the object exactly when some company has it: no pill shows a
    zero. *)
Theorem providerCounts_lookup st key :
  let n := length (companiesOf key st) in
  providerCounts st !! key = countOf key n
  /\ (Obj.inherited key = false ->
      Obj.orZero (Obj.read_of (providerCounts st !! key) key) = Some n
      /\ (providerCounts st !! key = None <-> companiesOf key st = [])
      /\ providerCounts st !! key <> Some (Obj.Number 0)).
Proof.
  intros n. split; [apply providerCounts_countOf|]. intros Hk.
  split; [by apply providerCounts_orZero|].
  rewrite providerCounts_countOf. fold n. unfold countOf. rewrite Hk.
  assert (String.eqb key "__proto__" = false) as ->.
  { destruct (String.eqb_spec key "__proto__") as [->|]; done. }
  rewrite orb_false_r. subst n.
  destruct (companiesOf key st) as [|c cs]; simpl.
  - done.
  - split; [split; discriminate | discriminate].
Qed.

(** X7. When every provider of the catalog is a string, the list shown
    while a provider is hovered has as many companies as the counts object
    tells for that provider, if [Object.prototype] has no property of its
    name. *)
Theorem hovered_list_has_pill_count st h :
  (forall c, c ∈ allCompanies st -> provider c <> JUndefined) ->
  set_to (hoveredProvider st) h ->
  Obj.inherited h = false ->
  Obj.orZero (Obj.read_of (providerCounts st !! h) h)
  = Some (length (displayedCompanies st)).
Proof.
  intros Hstr [Hh Hne] Hown.
  rewrite providerCounts_orZero by done. f_equal.
  unfold displayedCompanies, companiesOf. rewrite Hh. simpl.
  rewrite (falsy_false _ Hne). f_equal. symmetry. apply filter_ext_in.
  intros c Hc%list_elem_of_In. specialize (Hstr c Hc).
  destruct (provider c); [done|]. reflexivity.
Qed.

(** ** Sorting, and the entries of an object *)

Lemma insert_perm {A} (cmp : A -> A -> Z) x l : Arr.insert cmp x l ≡ₚ x :: l.
Proof.
  induction l as [|y l IH]; simpl; [done|].
  destruct (0 <? cmp x y)%Z; [|done].
  rewrite IH. apply Permutation_swap.
Qed.

Lemma sort_perm {A} (cmp : A -> A -> Z) l : Arr.stableSort cmp l ≡ₚ l.
Proof.
  induction l as [|x l IH]; simpl; [done|].
  rewrite insert_perm. by constructor.
Qed.

(** A stable sort keeps the order of the elements that [keep] selects, when
    the comparator never orders two of them. *)
Lemma sort_stable {A} (cmp : A -> A -> Z) (keep : A -> bool) l :
  (forall x y, keep x = true -> keep y = true -> (cmp x y <= 0)%Z) ->
  List.filter keep (Arr.stableSort cmp l) = List.filter keep l.
Proof.
  intros Htie. induction l as [|x l IH]; simpl; [done|].
  rewrite <- IH. clear IH. generalize (Arr.stableSort cmp l) as s.
  induction s as [|y s IHs]; simpl; [done|].
  destruct (0 <? cmp x y)%Z eqn:Hxy; simpl; [|done].
  rewrite IHs. destruct (keep x) eqn:Hx, (keep y) eqn:Hy; try done.
  apply Z.ltb_lt in Hxy. specialize (Htie x y Hx Hy). lia.
Qed.

(** The sort of a list of numbers for the comparator [b - a]. *)
Lemma insert_sorted (x : string * nat) l :
  Sorted (fun a b : string * nat => b.2 <= a.2) l ->
  Sorted (fun a b : string * nat => b.2 <= a.2)
         (Arr.insert (fun a b => Z.of_nat b.2 - Z.of_nat a.2)%Z x l).
Proof.
  induction 1 as [|y l Hl IH Hhd]; simpl; [by repeat constructor|].
  destruct (0 <? Z.of_nat y.2 - Z.of_nat x.2)%Z eqn:Hxy.
  - constructor; [done|].
    apply Z.ltb_lt in Hxy.
    destruct l as [|z l]; simpl.
    + constructor. lia.
    + destruct (0 <? Z.of_nat z.2 - Z.of_nat x.2)%Z; constructor.
      * by inversion Hhd.
      * lia.
  - constructor; [by constructor|]. constructor.
    apply Z.ltb_ge in Hxy. lia.
Qed.

Lemma sort_sorted (l : list (string * nat)) :
  StronglySorted (fun a b : string * nat => b.2 <= a.2)
    (Arr.stableSort (fun a b => Z.of_nat b.2 - Z.of_nat a.2)%Z l).
Proof.
  apply Sorted_StronglySorted.
  - intros a b c Hab Hbc. lia.
  - induction l as [|x l IH]; simpl; [constructor | by apply insert_sorted].
Qed.

Lemma insert_map {A B} (f : A -> B) (cmp : A -> A -> Z) (cmp' : B -> B -> Z) x l :
  (forall a b, cmp' (f a) (f b) = cmp a b) ->
  Arr.insert cmp' (f x) (map f l) = map f (Arr.insert cmp x l).
Proof.
  intros Hf. induction l as [|y l IH]; simpl; [done|].
  rewrite Hf. destruct (0 <? cmp x y)%Z; simpl; [by rewrite IH | done].
Qed.

Lemma sort_map {A B} (f : A -> B) (cmp : A -> A -> Z) (cmp' : B -> B -> Z) l :
  (forall a b, cmp' (f a) (f b) = cmp a b) ->
  Arr.stableSort cmp' (map f l) = map f (Arr.stableSort cmp l).
Proof.
  intros Hf. induction l as [|x l IH]; simpl; [done|].
  rewrite IH. by apply insert_map.
Qed.

(** Entries whose values are numbers are the image of a list of numbers. *)
Lemma numbers_map (es : list (string * Obj.count)) :
  Forall (fun e => exists n, e.2 = Obj.Number n) es ->
  exists ns : list (string * nat), es = map (fun p => (p.1, Obj.Number p.2)) ns.
Proof.
  induction 1 as [|[k c] es [n Hn] _ [ns ->]].
  - by exists [].
  - simpl in Hn. subst c. by exists ((k, n) :: ns).
Qed.

Lemma numeric_numbers (es : list (string * Obj.count)) :
  Forall (fun e => exists n, e.2 = Obj.Number n) es ->
  Arr.numeric byCountDesc es = true.
Proof.
  intros Hes. unfold Arr.numeric. apply forallb_forall. intros a Ha.
  apply forallb_forall. intros b Hb.
  rewrite Forall_forall in Hes.
  destruct (Hes a) as [x Hx]; [by apply list_elem_of_In|].
  destruct (Hes b) as [y Hy]; [by apply list_elem_of_In|].
  unfold byCountDesc. rewrite Hx, Hy. by apply bool_decide_eq_true_2.
Qed.

(** The sort of entries that are all numbers is defined, is a permutation
    and is in the order of decreasing values. *)
Lemma sort_numbers (es : list (string * Obj.count)) :
  Forall (fun e => exists n, e.2 = Obj.Number n) es ->
  exists sorted,
    Arr.sort byCountDesc es = Some sorted
    /\ sorted = Arr.stableSort (fun a b => default 0%Z (byCountDesc a b)) es
    /\ sorted ≡ₚ es
    /\ StronglySorted
         (fun a b => exists x y, a.2 = Obj.Number x /\ b.2 = Obj.Number y /\ y <= x)
         sorted.
Proof.
  intros Hes. eexists. unfold Arr.sort. rewrite (numeric_numbers es Hes).
  split; [done|]. split; [done|]. split; [apply sort_perm|].
  destruct (numbers_map es Hes) as [ns ->].
  rewrite (sort_map (fun p : string * nat => (p.1, Obj.Number p.2))
             (fun a b => Z.of_nat b.2 - Z.of_nat a.2)%Z) by done.
  eapply StronglySorted_fmap; [|apply sort_sorted].
  intros a b Hab. exists a.2, b.2. done.
Qed.

Lemma entries_perm (o : Obj.props) : Obj.entries o ≡ₚ o.
Proof.
  unfold Obj.entries.
  rewrite sort_perm.
  induction o as [|e o IH]; simpl; [done|].
  destruct (Obj.arrayIndex e.1); simpl.
  - by constructor.
  - rewrite <- Permutation_middle. by constructor.
Qed.

Lemma entries_no_index (o : Obj.props) :
  (forall e, e ∈ o -> Obj.arrayIndex e.1 = None) -> Obj.entries o = o.
Proof.
  intros Hno. unfold Obj.entries.
  assert (omap (fun e => match Obj.arrayIndex e.1 with
                         | Some i => Some (i, e)
                         | None => None
                         end) o = []) as ->.
  { induction o as [|e o IH]; [done|]. cbn.
    rewrite (Hno e) by (by left). apply IH. intros e' He'. apply Hno. by right. }
  simpl. induction o as [|e o IH]; [done|]. simpl.
  rewrite (Hno e) by (by left). f_equal. apply IH.
  intros e' He'. apply Hno. by right.
Qed.

Lemma get_to_map (o : Obj.props) key :
  Obj.get o key = (list_to_map o : gmap string Obj.count) !! key.
Proof.
  induction o as [|[k c] o IH]; simpl; [by rewrite lookup_empty|].
  destruct (String.eqb_spec k key) as [->|Hne].
  - by rewrite lookup_insert_eq.
  - by rewrite lookup_insert_ne.
Qed.

Lemma set_keys key v (o : Obj.props) :
  (Obj.set key v o).*1 = if bool_decide (key ∈ o.*1) then o.*1 else o.*1 ++ [key].
Proof.
  induction o as [|[k n] o IH]; [done|]. cbn [Obj.set].
  destruct (String.eqb_spec k key) as [->|Hne]; rewrite !fmap_cons; cbn [fst].
  - rewrite bool_decide_eq_true_2 by (by left). done.
  - rewrite IH. destruct (bool_decide (key ∈ o.*1)) eqn:Hin.
    + apply bool_decide_eq_true in Hin.
      rewrite bool_decide_eq_true_2 by (by right). done.
    + apply bool_decide_eq_false in Hin.
      rewrite bool_decide_eq_false_2; [done|].
      intros [?|?]%elem_of_cons; congruence.
Qed.

Lemma set_to_map key v (o : Obj.props) :
  (list_to_map (Obj.set key v o) : gmap string Obj.count)
  = <[key := v]> (list_to_map o).
Proof.
  induction o as [|[k n] o IH]; simpl; [done|].
  destruct (String.eqb_spec k key) as [->|Hne]; simpl.
  - by rewrite insert_insert_eq.
  - rewrite IH. by rewrite insert_insert_ne.
Qed.

Lemma bump_keys key (o : Obj.props) :
  (Obj.bump key o).*1
  = if String.eqb key "__proto__" || bool_decide (key ∈ o.*1) then o.*1
    else o.*1 ++ [key].
Proof.
  unfold Obj.bump. destruct (String.eqb key "__proto__"); [done|].
  apply set_keys.
Qed.

Lemma bump_NoDup key (o : Obj.props) : NoDup o.*1 -> NoDup (Obj.bump key o).*1.
Proof.
  intros Hnd. rewrite bump_keys.
  destruct (String.eqb key "__proto__"); [done|]. simpl.
  case_bool_decide as Hin; [done|].
  apply NoDup_app. split; [done|]. split; [|apply NoDup_singleton].
  intros x Hx ->%list_elem_of_singleton. done.
Qed.

Lemma providerEntries_spec l : forall (o : Obj.props) (m : gmap string Obj.count),
  NoDup o.*1 -> list_to_map o = m ->
  let o' := foldl (fun o c => Obj.bump (toPropertyKey (provider c)) o) o l in
  NoDup o'.*1 /\ list_to_map o' = foldl countCompany m l.
Proof.
  induction l as [|c l IH]; intros o m Hnd Hm; simpl; [done|].
  apply IH; [by apply bump_NoDup|].
  unfold Obj.bump, countCompany, Obj.lookup. rewrite get_to_map, Hm.
  destruct (String.eqb _ "__proto__"); [done|].
  by rewrite set_to_map, Hm.
Qed.

Lemma providerEntries_counts st :
  providerEntries st ≡ₚ map_to_list (providerCounts st).
Proof.
  destruct (providerEntries_spec (allCompanies st) [] ∅) as [Hnd Hm];
    [constructor | done |].
  unfold providerCounts. rewrite <- Hm. symmetry.
  by apply map_to_list_to_map.
Qed.

Lemma key_of_counts st k c :
  providerCounts st !! k = Some c -> k ∈ providerKeys st.
Proof.
  rewrite providerCounts_countOf. unfold countOf.
  destruct (companiesOf k st) as [|c0 cs] eqn:Hcs; [done|]. intros _.
  assert (c0 ∈ companiesOf k st) as Hc0 by (rewrite Hcs; by left).
  unfold companiesOf in Hc0.
  apply list_elem_of_In, filter_In in Hc0 as [Hin Hkey].
  apply String.eqb_eq in Hkey. subst k.
  unfold providerKeys. apply list_elem_of_In.
  by apply (in_map (fun c => toPropertyKey (provider c))).
Qed.

(** When no provider of the catalog names an inherited property, every
    value of the counts object is a number. *)
Lemma providerEntries_numbers st :
  (forall k, k ∈ providerKeys st -> Obj.inherited k = false) ->
  Forall (fun e => exists n, e.2 = Obj.Number n) (Obj.entries (providerEntries st)).
Proof.
  intros Hno. rewrite entries_perm, providerEntries_counts.
  apply Forall_forall. intros [k c] Hkc%elem_of_map_to_list. simpl.
  pose proof (key_of_counts st k c Hkc) as Hk.
  rewrite providerCounts_countOf in Hkc. unfold countOf in Hkc.
  rewrite (Hno k Hk) in Hkc.
  destruct (_ || _); [done|]. injection Hkc as <-. by eexists.
Qed.

Lemma sumValues_perm (l1 l2 : list (string * Obj.count)) :
  l1 ≡ₚ l2 ->
  foldr (fun e acc => plusNumbers (Obj.number e.2) acc) (Some 0) l1
  = foldr (fun e acc => plusNumbers (Obj.number e.2) acc) (Some 0) l2.
Proof.
  induction 1 as [|x l1 l2 _ IH|x y l|l1 l2 l3 _ IH1 _ IH2]; simpl.
  - done.
  - by rewrite IH.
  - apply plusNumbers_swap.
  - by rewrite IH1.
Qed.

Lemma sumCounts_to_list (m : gmap string Obj.count) :
  sumCounts m
  = foldr (fun e acc => plusNumbers (Obj.number e.2) acc) (Some 0) (map_to_list m).
Proof.
  unfold sumCounts. induction m as [|k n m Hk IH] using map_ind.
  - by rewrite map_fold_empty, map_to_list_empty.
  - rewrite map_fold_insert_L by (done || (intros; apply plusNumbers_swap)).
    rewrite (sumValues_perm _ _ (map_to_list_insert m k n Hk)). simpl.
    by rewrite IH.
Qed.

Lemma slice_names (l : list Pie.slice) :
  map Pie.name l = (map (fun s => (Pie.name s, Pie.value s)) l).*1.
Proof. induction l as [|s l IH]; [done|]. cbn. by rewrite IH. Qed.

(** X8. When no provider of the catalog names a property of
    [Object.prototype], the pie has one slice for each key of the counts
    object, holding the count of that key, and nothing else; so no provider
    has two slices and the values of the slices add up to the number of
    companies of the catalog. A slice whose provider is not a key of the
    palette gets the colour of "Other". *)
Theorem pieData_slices_are_counts st :
  (forall k, k ∈ providerKeys st -> Obj.inherited k = false) ->
  exists slices,
    pieData st = Some slices
    /\ map (fun s => (Pie.name s, Pie.value s)) slices
         ≡ₚ map_to_list (providerCounts st)
    /\ NoDup (map Pie.name slices)
    /\ sumValues slices = Some (length (allCompanies st))
    /\ forall s, s ∈ slices ->
         Obj.get COLORS (Pie.name s) = None ->
         Obj.lookup COLORS "Other" = Pie.color s.
Proof.
  intros Hno.
  destruct (sort_numbers _ (providerEntries_numbers st Hno))
    as (sorted & Hsort & _ & Hp & _).
  exists (map (fun e => {| Pie.name := e.1; Pie.value := e.2;
                           Pie.color := colorOf e.1 |}) sorted).
  assert (map (fun s => (Pie.name s, Pie.value s))
            (map (fun e => {| Pie.name := e.1; Pie.value := e.2;
                              Pie.color := colorOf e.1 |}) sorted)
            ≡ₚ map_to_list (providerCounts st)) as Hperm.
  { rewrite map_map. simpl.
    rewrite (map_ext _ id) by (by intros []). rewrite map_id.
    by rewrite Hp, entries_perm, providerEntries_counts. }
  split; [|split; [done|split; [|split]]].
  - unfold pieData, sortedEntries. by rewrite Hsort.
  - rewrite slice_names, Hperm. apply NoDup_fst_map_to_list.
  - rewrite <- (sumCounts_providerCounts st Hno).
    rewrite sumCounts_to_list, <- (sumValues_perm _ _ Hperm).
    unfold sumValues.
    generalize (map (fun e : string * Obj.count =>
                       {| Pie.name := e.1; Pie.value := e.2;
                          Pie.color := colorOf e.1 |}) sorted) as l.
    induction l as [|s l IH]; simpl; [done | by rewrite IH].
  - intros s (e & -> & He)%list_elem_of_fmap.
    cbn [Pie.name Pie.color]. intros Hget.
    assert (Obj.inherited e.1 = false) as Hown.
    { apply Hno. rewrite Hp, entries_perm, providerEntries_counts in He.
      destruct e as [k c]. apply elem_of_map_to_list in He.
      by apply (key_of_counts st k c). }
    unfold colorOf at 1. unfold Obj.lookup at 2.
    unfold Obj.read_of.
    by rewrite Hget, Hown.
Qed.

(** X9. When no provider of the catalog names a property of
    [Object.prototype], the sort is defined and the slices, and the pills,
    come in the order of decreasing count. *)
Theorem pieData_sorted_by_count st :
  (forall k, k ∈ providerKeys st -> Obj.inherited k = false) ->
  exists slices entries,
    pieData st = Some slices
    /\ sortedEntries st = Some entries
    /\ StronglySorted
         (fun a b => exists x y, Pie.value a = Obj.Number x
                                 /\ Pie.value b = Obj.Number y /\ y <= x)
         slices
    /\ StronglySorted
         (fun a b => exists x y, a.2 = Obj.Number x /\ b.2 = Obj.Number y /\ y <= x)
         entries.
Proof.
  intros Hno.
  destruct (sort_numbers _ (providerEntries_numbers st Hno))
    as (sorted & Hsort & _ & _ & Hs).
  eexists _, sorted. unfold pieData, sortedEntries. rewrite Hsort.
  split; [done|]. split; [done|]. split; [|done].
  eapply StronglySorted_fmap; [|exact Hs]. done.
Qed.

(** X10. When no provider of the catalog names a property of
    [Object.prototype], providers with the same count keep, among
    themselves, the order that [Object.entries] gives them. *)
Theorem pieData_ties_keep_entries_order st n :
  (forall k, k ∈ providerKeys st -> Obj.inherited k = false) ->
  exists entries,
    sortedEntries st = Some entries
    /\ List.filter (fun e => match e.2 with
                             | Obj.Number x => Nat.eqb x n
                             | Obj.Text _ _ => false
                             end) entries
       = List.filter (fun e => match e.2 with
                               | Obj.Number x => Nat.eqb x n
                               | Obj.Text _ _ => false
                               end) (Obj.entries (providerEntries st)).
Proof.
  intros Hno.
  destruct (sort_numbers _ (providerEntries_numbers st Hno))
    as (sorted & Hsort & -> & _).
  eexists. split; [exact Hsort|].
  apply sort_stable. intros [k1 [x|]] [k2 [y|]]; simpl; try done.
  intros ->%Nat.eqb_eq ->%Nat.eqb_eq. lia.
Qed.

Lemma remove_dups_snoc_first (ks : list string) k :
  reverse (remove_dups (reverse (ks ++ [k])))
  = if bool_decide (k ∈ reverse (remove_dups (reverse ks)))
    then reverse (remove_dups (reverse ks))
    else reverse (remove_dups (reverse ks)) ++ [k].
Proof.
  rewrite reverse_snoc. simpl.
  destruct (decide_rel elem_of k (reverse ks)) as [Hin|Hin].
  - rewrite bool_decide_eq_true_2; [done|].
    by rewrite elem_of_reverse, elem_of_remove_dups.
  - rewrite bool_decide_eq_false_2.
    + by rewrite reverse_cons.
    + by rewrite elem_of_reverse, elem_of_remove_dups.
Qed.

Lemma providerEntries_keys l :
  (foldl (fun o c => Obj.bump (toPropertyKey (provider c)) o) [] l).*1
  = reverse (remove_dups (reverse
      (List.filter (fun k => negb (String.eqb k "__proto__"))
                   (map (fun c => toPropertyKey (provider c)) l)))).
Proof.
  induction l as [|c l IH] using rev_ind; [done|].
  rewrite foldl_app, map_app, List.filter_app. simpl.
  rewrite bump_keys.
  destruct (String.eqb (toPropertyKey (provider c)) "__proto__"); simpl.
  - by rewrite app_nil_r.
  - by rewrite remove_dups_snoc_first, IH.
Qed.

(** X11. When no provider key of the catalog is an array index,
    [Object.entries] lists the keys in the order in which the providers first
    appear in the catalog, the order of the pills and slices of equal
    count; the key [__proto__] is never among them. *)
Theorem providerEntries_first_appearance st :
  (forall k, k ∈ providerKeys st -> Obj.arrayIndex k = None) ->
  (Obj.entries (providerEntries st)).*1
  = reverse (remove_dups (reverse
      (List.filter (fun k => negb (String.eqb k "__proto__")) (providerKeys st)))).
Proof.
  intros Hno. unfold providerEntries, providerKeys in *.
  rewrite entries_no_index; [apply providerEntries_keys|].
  intros e He. apply Hno.
  apply (list_elem_of_fmap_2 fst) in He. rewrite providerEntries_keys in He.
  rewrite elem_of_reverse, elem_of_remove_dups, elem_of_reverse in He.
  by apply list_elem_of_In, filter_In in He as [He%list_elem_of_In _].
Qed.

(** ** White space *)

Lemma trimEnd_empty s :
  Str.trimEnd s = "" <-> forall c, c ∈ String.list_ascii_of_string s -> Str.isWhiteSpace c = true.
Proof.
  induction s as [|a s IH]; simpl.
  - split; [intros _ c Hc; by apply elem_of_nil in Hc | done].
  - destruct (Str.trimEnd s) as [|b t] eqn:Ht.
    + destruct (Str.isWhiteSpace a) eqn:Ha.
      * split; [|done]. intros _ c [->|Hc]%elem_of_cons; [done|].
        by apply IH.
      * split; [done|]. intros Hall.
        rewrite Hall in Ha by (by left). done.
    + split; [done|]. intros Hall.
      assert (String b t = "") as Hbt; [|done].
      apply IH. intros c Hc. apply Hall. by right.
Qed.

Lemma trimStart_suffix s :
  exists ws, s = ws +:+ Str.trimStart s
             /\ forall c, c ∈ String.list_ascii_of_string ws -> Str.isWhiteSpace c = true.
Proof.
  induction s as [|a s (ws & Hs & Hws)]; simpl.
  - exists "". split; [done|]. intros c Hc. by apply elem_of_nil in Hc.
  - destruct (Str.isWhiteSpace a) eqn:Ha.
    + exists (String a ws). split; [by rewrite append_cons, <- Hs|].
      intros c [->|Hc]%elem_of_cons; [done | by apply Hws].
    + exists "". split; [done|]. intros c Hc. by apply elem_of_nil in Hc.
Qed.

Lemma list_ascii_of_append a b :
  String.list_ascii_of_string (a +:+ b) = String.list_ascii_of_string a ++ String.list_ascii_of_string b.
Proof.
  induction a as [|c a IH]; [done|]. rewrite append_cons. simpl. by f_equal.
Qed.

Lemma trim_empty s :
  Str.trim s = "" <-> forall c, c ∈ String.list_ascii_of_string s -> Str.isWhiteSpace c = true.
Proof.
  unfold Str.trim. rewrite trimEnd_empty.
  destruct (trimStart_suffix s) as (ws & Hs & Hws).
  split.
  - intros Hall c Hc. rewrite Hs, list_ascii_of_append in Hc.
    apply elem_of_app in Hc as [Hc|Hc]; auto.
  - intros Hall c Hc. apply Hall. rewrite Hs, list_ascii_of_append.
    apply elem_of_app. by right.
Qed.

Lemma occurs_in_char c s :
  Str.occurs_in (String c "") s -> c ∈ String.list_ascii_of_string s.
Proof.
  intros (pre & suf & ->). rewrite list_ascii_of_append. simpl.
  apply elem_of_app. right. by left.
Qed.

Lemma trim_dotted s : Str.occurs_in "." s -> Str.trim s <> "".
Proof.
  intros Hdot%occurs_in_char Hempty.
  rewrite trim_empty in Hempty. by specialize (Hempty _ Hdot).
Qed.

(** X12. An invocation is ignored exactly when the draft holds nothing but
    white space. *)
Theorem handleAddCompany_ignores_blank_draft st detect :
  handleAddCompany st detect = []
  <-> forall c, c ∈ String.list_ascii_of_string (newCompanyUrl st)
                -> Str.isWhiteSpace c = true.
Proof.
  rewrite <- trim_empty. split.
  - intros Hes. destruct (handleAddCompany_attempt st detect); done.
  - apply handleAddCompany_empty.
Qed.

Lemma replace_unfold s pat rep :
  Str.replace s pat rep
  = if Str.startsWith s pat then rep +:+ Str.drop (String.length pat) s
    else match s with
         | EmptyString => EmptyString
         | String c s' => String c (Str.replace s' pat rep)
         end.
Proof. by destruct s. Qed.

Lemma replace_absent s pat rep :
  Str.includes s pat = false -> Str.replace s pat rep = s.
Proof.
  induction s as [|c s IH]; rewrite includes_unfold, replace_unfold;
    destruct (Str.startsWith _ pat) eqn:Hp; try done.
  intros Hs. by rewrite IH.
Qed.

(** X13. A draft with neither scheme nor [www.] is stored as it was typed,
    trimmed and nothing more: its letters keep their case, so the duplicate
    check tells [Netflix.com] from [netflix.com]. *)
Theorem normalizeDomain_bare raw :
  (forall rest, Str.trim raw <> ("http://" +:+ rest)) ->
  (forall rest, Str.trim raw <> ("https://" +:+ rest)) ->
  ~ Str.occurs_in "www." (Str.trim raw) ->
  normalizeDomain raw = Some (Str.trim raw).
Proof.
  intros Hhttp Hhttps Hwww. unfold normalizeDomain.
  rewrite (startsWith_false _ _ Hhttp), (startsWith_false _ _ Hhttps). simpl.
  rewrite replace_absent; [done|].
  destruct (Str.includes _ _) eqn:Hi; [|done]. by apply includes_spec in Hi.
Qed.

(** ** The search box and the selections *)

Lemma filter_none {A} (f g : A -> bool) l :
  existsb f l = false -> List.filter (fun x => f x && g x) l = [].
Proof.
  induction l as [|x l IH]; simpl; [done|].
  intros [-> Hl]%orb_false_iff. simpl. by apply IH.
Qed.

Lemma handleSearch_unfold st value :
  handleSearch st value
  = SetSearchQuery value
    :: (if Str.includes value "."
           && Nat.ltb 3 (String.length value)
           && negb (existsb
                      (fun c => Str.includes (toLowerCase (name c)) (toLowerCase value))
                      (allCompanies st))
        then [SetTimeout (SetNewCompanyUrl value) 500]
        else []).
Proof. reflexivity. Qed.

Lemma handleSearch_scheduled st value :
  timers (handleSearch st value) <> [] ->
  timers (handleSearch st value) = [SetNewCompanyUrl value]
  /\ Str.includes value "." = true
  /\ runUi st (handleSearch st value) = with_searchQuery value st.
Proof.
  rewrite handleSearch_unfold.
  destruct (Str.includes value ".") eqn:Hdot; simpl; [|done].
  destruct (Nat.ltb 3 (String.length value)); simpl; [|done].
  destruct (existsb _ _); simpl; done.
Qed.

(** X14. [handleSearch] starts a timer only for a value with a dot, longer
    than three code units, that the name of no company contains, both taken
    in lower case: then the timer is the one that copies the value into the
    draft, the draft is untouched until it fires, and the filtered list
    under the new query is empty. *)
Theorem handleSearch_timer_when_nothing_found st value cb :
  cb ∈ timers (handleSearch st value) ->
  cb = SetNewCompanyUrl value
  /\ timers (handleSearch st value) = [SetNewCompanyUrl value]
  /\ Str.occurs_in "." value
  /\ 3 < String.length value
  /\ (forall c, c ∈ allCompanies st ->
        ~ Str.occurs_in (toLowerCase value) (toLowerCase (name c)))
  /\ runUi st (handleSearch st value) = with_searchQuery value st
  /\ filteredCompanies (runUi st (handleSearch st value)) = [].
Proof.
  rewrite handleSearch_unfold.
  destruct (Str.includes value ".") eqn:Hdot; simpl;
    [|by intros ?%elem_of_nil].
  destruct (Nat.ltb 3 (String.length value)) eqn:Hlen; simpl;
    [|by intros ?%elem_of_nil].
  destruct (existsb _ _) eqn:Hex; simpl; [by intros ?%elem_of_nil|].
  intros ->%list_elem_of_singleton.
  split; [done|]. split; [done|]. split; [by apply includes_spec|].
  split; [by apply Nat.ltb_lt|]. split; [|split; [done|]].
  - intros c Hc Hocc. apply includes_spec in Hocc.
    assert (existsb (fun c => Str.includes (toLowerCase (name c)) (toLowerCase value))
                    (allCompanies st) = true) as Hex'; [|congruence].
    apply existsb_exists. exists c. split; [by apply list_elem_of_In | done].
  - unfold filteredCompanies. simpl. by apply filter_none.
Qed.

(** X15. Typing a value that the name of some company contains, in any
    case, starts no timer: the draft is never touched by a search that finds
    something. *)
Theorem handleSearch_found_starts_no_timer st value c :
  c ∈ allCompanies st ->
  Str.occurs_in (toLowerCase value) (toLowerCase (name c)) ->
  timers (handleSearch st value) = []
  /\ uiRequests (handleSearch st value) = []
  /\ runUi st (handleSearch st value) = with_searchQuery value st.
Proof.
  intros Hc Hocc. rewrite handleSearch_unfold.
  assert (existsb (fun c => Str.includes (toLowerCase (name c)) (toLowerCase value))
                  (allCompanies st) = true) as ->.
  { apply existsb_exists. exists c. split; [by apply list_elem_of_In|].
    by apply includes_spec. }
  rewrite andb_false_r. done.
Qed.

(** X16. Enter starts the handler of the current render, which reads the
    draft and not the query: while the draft is blank, Enter on a dotted
    query issues no request; it only copies the query into the draft. *)
Theorem onKeyDown_blank_draft st detect :
  Str.occurs_in "." (searchQuery st) ->
  Str.trim (newCompanyUrl st) = "" ->
  uiRequests (onKeyDown st "Enter" detect) = []
  /\ runUi st (onKeyDown st "Enter" detect)
     = with_newCompanyUrl (searchQuery st) st.
Proof.
  intros Hdot%includes_spec Hblank. unfold onKeyDown. rewrite Hdot. simpl.
  rewrite handleAddCompany_empty by done. done.
Qed.

(** X17. Search, wait for the timer, press Enter: when the value typed made
    [handleSearch] start its timer, and the timer has fired, Enter sends one
    request for the trimmed value; if the domain is new and the detection
    succeeds the company is appended and the draft cleared, while the
    query stays what was typed. *)
Theorem search_then_enter_adds st value detect d v :
  timers (handleSearch st value) <> [] ->
  normalizeDomain value = Some d ->
  d ∉ map domain (allCompanies st) ->
  detect (Str.trim value) = Response true (JsonValue v) ->
  let fired := run (runUi st (handleSearch st value))
                   (timers (handleSearch st value)) in
  let es := onKeyDown fired "Enter" detect in
  newCompanyUrl fired = value
  /\ uiRequests es = [Str.trim value]
  /\ customCompanies (runUi fired es)
     = customCompanies st
       ++ [{| name := formatName (firstLabel d); symbol := "CUSTOM";
              domain := d; provider := v |}]
  /\ newCompanyUrl (runUi fired es) = ""
  /\ searchQuery (runUi fired es) = value.
Proof.
  intros Htimer Hd Hin Hresp.
  destruct (handleSearch_scheduled st value Htimer) as (Ht & Hdot & Hst).
  rewrite Ht, Hst. simpl.
  unfold onKeyDown. simpl. rewrite Hdot.
  simpl.
  set (fired := with_newCompanyUrl value (with_searchQuery value st)).
  assert (handleAddCompany fired detect
          = [SetIsDetecting true; SetDetectionError None;
             Fetch (Str.trim value);
             AppendCustomCompany
               {| name := formatName (firstLabel d); symbol := "CUSTOM";
                  domain := d; provider := v |};
             SetNewCompanyUrl ""; SetIsDetecting false]) as ->.
  { apply (handleAddCompany_success fired detect d v); try done.
    simpl. by apply trim_dotted, includes_spec. }
  done.
Qed.

(** X18. Hovering is transient and touches nothing else: entering a pill
    leaves the sticky filter, the filtered list and the counts as they were,
    and once the pointer has left the displayed list is the filtered list
    again. *)
Theorem hover_is_transient st p :
  let entered := runUi st (onProviderEnter p) in
  let left := runUi entered onProviderLeave in
  selectedProvider entered = selectedProvider st
  /\ filteredCompanies entered = filteredCompanies st
  /\ providerCounts entered = providerCounts st
  /\ (p <> "" ->
      displayedCompanies entered
      = List.filter (fun c => bool_decide (provider c = JString p))
                    (allCompanies st))
  /\ displayedCompanies left = filteredCompanies st
  /\ left = with_hoveredProvider None st.
Proof.
  repeat split; try done. intros Hp.
  unfold displayedCompanies. simpl. rewrite (falsy_false _ Hp).
  apply filter_ext_bool. intros c. apply strict_eq_decide.
Qed.

(** X25. A click on a pill or a pie cell toggles the sticky filter: it
    selects the provider unless that provider is the selected one, in which
    case it clears the selection; a second click undoes the first when the
    selection was empty or was that provider. The query and the hover are
    not touched. *)
Theorem provider_click_toggles st p :
  let clicked := runUi st (onProviderClick st p) in
  let again := runUi clicked (onProviderClick clicked p) in
  (selectedProvider st = Some p ->
   selectedProvider clicked = None /\ again = st)
  /\ (selectedProvider st <> Some p ->
      selectedProvider clicked = Some p
      /\ selectedProvider again = None
      /\ forall c, c ∈ filteredCompanies clicked ->
                   p <> "" -> provider c = JString p)
  /\ searchQuery clicked = searchQuery st
  /\ hoveredProvider clicked = hoveredProvider st.
Proof.
  unfold onProviderClick, isSelected. simpl.
  split; [|split; [|done]].
  - intros Hp. rewrite Hp, String.eqb_refl. simpl.
    split; [done|]. destruct st. simpl in *. by subst.
  - intros Hp.
    assert ((if match selectedProvider st with
                | Some s => String.eqb s p
                | None => false
                end then None else Some p) = Some p) as ->.
    { destruct (selectedProvider st) as [s|]; [|done].
      destruct (String.eqb_spec s p) as [->|]; done. }
    simpl. rewrite String.eqb_refl. split; [done|]. split; [done|].
    intros c Hc Hne. revert Hc. unfold filteredCompanies.
    rewrite list_elem_of_In, filter_In, andb_true_iff, matchesProvider_spec.
    intros (_ & _ & Hc). by apply Hc.
Qed.

(** X26. The "Clear Filter" button drops the sticky filter and the hover
    together: the grid then holds every company whose name contains the
    query. *)
Theorem clear_filter_shows_search_results st :
  let cleared := runUi st onClearFilter in
  searchQuery cleared = searchQuery st
  /\ forall c, c ∈ displayedCompanies cleared
               <-> c ∈ allCompanies st
                   /\ Str.occurs_in (toLowerCase (searchQuery st))
                                    (toLowerCase (name c)).
Proof.
  split; [done|]. intros c. unfold displayedCompanies, filteredCompanies. simpl.
  rewrite !list_elem_of_In, filter_In, andb_true_iff, includes_spec. tauto.
Qed.

Lemma filter_all {A} (f : A -> bool) l :
  (forall x, f x = true) -> List.filter f l = l.
Proof.
  intros Hf. induction l as [|x l IH]; simpl; [done|]. by rewrite Hf, IH.
Qed.

(** X19. The cross of the search box empties the query and drops the
    sticky filter: the filtered list is the whole catalog again, and so is
    the displayed list unless a provider is hovered. *)
Theorem clear_search_shows_catalog st :
  let cleared := runUi st onClearSearch in
  filteredCompanies cleared = allCompanies st
  /\ (unset (hoveredProvider st) = true ->
      displayedCompanies cleared = allCompanies st).
Proof.
  assert (filteredCompanies (runUi st onClearSearch) = allCompanies st) as Hf.
  { unfold filteredCompanies. simpl. apply filter_all. intros c.
    by rewrite toLowerCase_empty, includes_empty. }
  split; [done|]. intros Hh. unfold displayedCompanies. simpl.
  by rewrite Hh.
Qed.

Lemma displayNameOf_spec p :
  p <> "" ->
  if Obj.inherited p then displayNameOf p = Obj.Inherited p
  else exists n, displayNameOf p = Obj.Own n /\ n <> ""
                 /\ (Obj.get PROVIDER_DISPLAY_NAMES p = None -> n = p).
Proof.
  intros Hne. unfold displayNameOf, Obj.lookup, PROVIDER_DISPLAY_NAMES.
  cbn [Obj.get].
  repeat match goal with
         | |- context [String.eqb ?k p] =>
             destruct (String.eqb_spec k p) as [<-|?];
             [vm_compute; eexists; by repeat split|]
         end.
  unfold Obj.read_of. destruct (Obj.inherited p); [done|].
  exists p. done.
Qed.

(** X20. The title over the grid and the grid agree: when the title names
    a provider, the hovered one or else the selected one, every company
    displayed is of that provider; otherwise the title is "All Companies"
    and the grid holds every company whose name contains the query. The
    name in the title is a string that is not empty, the display name of
    the provider or else the provider itself, unless the provider names a
    property of [Object.prototype]: then it is the text of the inherited
    value. *)
Theorem gridTitle_agrees_with_grid st :
  (forall p, set_to (focusedProvider st) p ->
     gridTitle st = textOf (displayNameOf p) +:+ " Companies"
     /\ (if Obj.inherited p then displayNameOf p = Obj.Inherited p
         else exists n, displayNameOf p = Obj.Own n /\ n <> ""
                        /\ (Obj.get PROVIDER_DISPLAY_NAMES p = None -> n = p))
     /\ forall c, c ∈ displayedCompanies st -> provider c = JString p)
  /\ (unset (focusedProvider st) = true ->
      gridTitle st = "All Companies"
      /\ forall c, c ∈ displayedCompanies st
                   <-> c ∈ allCompanies st
                       /\ Str.occurs_in (toLowerCase (searchQuery st))
                                        (toLowerCase (name c))).
Proof.
  unfold gridTitle, focusedProvider, displayedCompanies. split.
  - intros p [Hp Hne].
    assert (if Obj.inherited p then displayNameOf p = Obj.Inherited p
            else exists n, displayNameOf p = Obj.Own n /\ n <> ""
                           /\ (Obj.get PROVIDER_DISPLAY_NAMES p = None -> n = p))
      as Hname by (by apply displayNameOf_spec).
    destruct (unset (hoveredProvider st)) eqn:Hh; rewrite Hp;
      rewrite (falsy_false _ Hne); (split; [done|]); (split; [done|]);
      intros c.
    + unfold filteredCompanies.
      rewrite list_elem_of_In, filter_In, andb_true_iff, matchesProvider_spec.
      intros (_ & _ & Hc). by apply Hc.
    + rewrite list_elem_of_In, filter_In. simpl.
      by intros [_ ?%strict_eq_spec].
  - destruct (unset (hoveredProvider st)) eqn:Hh.
    + intros Hs. split.
      { destruct (selectedProvider st) as [[|]|]; done. }
      intros c. unfold filteredCompanies.
      rewrite !list_elem_of_In, filter_In, andb_true_iff, includes_spec, Hs.
      simpl. tauto.
    + intros Hs. congruence.
Qed.

(** X21. A pie cell is dimmed exactly when some provider has the focus,
    the hovered one or else the selected one, and it is another one. *)
Theorem cellDimmed_iff_other_focus st cell :
  cellDimmed st cell = true
  <-> exists p, set_to (focusedProvider st) p /\ p <> cell.
Proof.
  unfold cellDimmed, focusedProvider, isSelected, set_to.
  destruct (unset (hoveredProvider st)) eqn:Hh.
  - destruct (selectedProvider st) as [p0|]; cbn [unset negb andb].
    + destruct (Str.falsy p0) eqn:Hf; cbn [negb andb].
      * apply falsy_spec in Hf as ->.
        split; [done | intros (p & [[= <-] ?] & _); done].
      * destruct (String.eqb_spec p0 cell) as [<-|Hne]; cbn [negb].
        -- split; [done | intros (p & [[= <-] _] & ?); done].
        -- split; [intros _ | done]. exists p0.
           split; [|done]. split; [done|]. by intros ->.
    + split; [done | intros (p & [? _] & _); done].
  - destruct (hoveredProvider st) as [h|]; [|done].
    cbn [unset] in Hh. cbn [strict_eq_opt strict_eq].
    destruct (String.eqb_spec cell h) as [->|Hne]; cbn [negb].
    + split; [done | intros (p & [[= <-] _] & ?); done].
    + split; [intros _ | done]. exists h.
      split; [split; [done|] | congruence]. by intros ->.
Qed.

(** ** The fallbacks of a logo *)

Lemma clash_startsWith t x q :
  clash t q = true -> Str.startsWith (t +:+ x) q = false.
Proof.
  revert q. induction t as [|a t IH]; intros [|b q]; simpl; try done.
  destruct (Ascii.eqb_spec a b) as [->|Hne].
  - rewrite Ascii.eqb_refl. apply IH.
  - intros _. destruct (Ascii.eqb_spec b a); [congruence | done].
Qed.

Lemma includes_app_prefix pre x q :
  forallb (fun t => clash t q) (suffixes pre) = true ->
  Str.includes (pre +:+ x) q = Str.includes x q.
Proof.
  induction pre as [|c pre IH]; [done|]. cbn [suffixes forallb].
  intros [Hc Hrest]%andb_true_iff.
  rewrite (includes_unfold (String c pre +:+ x)).
  rewrite (clash_startsWith (String c pre) x q Hc).
  rewrite append_cons. by apply IH.
Qed.

Lemma startsWith_app_suffix s suf q :
  forallb (fun t => negb (Str.startsWith suf t)) (suffixes q) = true ->
  Str.startsWith (s +:+ suf) q = Str.startsWith s q.
Proof.
  revert q. induction s as [|a s IH]; intros [|b q]; simpl.
  - intros _. by rewrite !startsWith_empty.
  - intros [Hq _]%andb_true_iff. rewrite append_nil_l.
    by apply negb_true_iff in Hq.
  - done.
  - intros [_ Hrest]%andb_true_iff.
    destruct (Ascii.eqb b a); [by apply IH | done].
Qed.

Lemma includes_app_suffix d suf q :
  forallb (fun t => negb (Str.startsWith suf t)) (suffixes q) = true ->
  Str.includes suf q = false ->
  Str.includes (d +:+ suf) q = Str.includes d q.
Proof.
  intros Hsuf Hnot. induction d as [|c d IH].
  - rewrite append_nil_l, Hnot. destruct q; [|done].
    by rewrite includes_empty in Hnot.
  - rewrite (includes_unfold (String c d +:+ suf)), (includes_unfold (String c d)).
    rewrite (startsWith_app_suffix (String c d) suf q Hsuf).
    rewrite append_cons, IH. done.
Qed.

Lemma includes_between pre d suf q :
  apart pre q suf = true ->
  Str.includes (pre +:+ d +:+ suf) q = Str.includes d q.
Proof.
  unfold apart. intros [[Hpre Hsuf]%andb_true_iff Hnot%negb_true_iff]%andb_true_iff.
  rewrite includes_app_prefix by done. by apply includes_app_suffix.
Qed.

Lemma includes_here_after pre q rest :
  Str.includes (pre +:+ q +:+ rest) q = true.
Proof. apply includes_spec. by exists pre, rest. Qed.

Lemma faviconUrl_clearbit c :
  Str.includes (Img.faviconUrl c) "clearbit" = Str.includes (domain c) "clearbit".
Proof. unfold Img.faviconUrl. by apply includes_between. Qed.

Lemma faviconUrl_google c : Str.includes (Img.faviconUrl c) "google.com" = true.
Proof.
  apply (includes_here_after "https://www." "google.com"
           ("/s2/favicons?domain=" +:+ domain c +:+ "&sz=128")).
Qed.

Lemma logoUrl_clearbit c : Str.includes (Img.logoUrl c) "clearbit" = true.
Proof.
  apply (includes_here_after "https://logo." "clearbit" (".com/" +:+ domain c)).
Qed.

(** X22. The chain of a logo. The first failure, of the logo service,
    always leads to the favicon of the domain. When the domain does not
    contain [clearbit], the failure of the favicon leads to the generated
    avatar of the encoded name; and when the encoded name contains neither
    [clearbit] nor [google.com], the failure of the avatar assigns nothing:
    the chain ends after three sources. The [src] read is taken to be the
    one assigned. *)
Theorem logo_fallback_chain c :
  Str.includes (domain c) "clearbit" = false ->
  Str.includes (Img.encodeURIComponent (name c)) "clearbit" = false ->
  Str.includes (Img.encodeURIComponent (name c)) "google.com" = false ->
  Img.onError c (Img.logoUrl c) = Some (Img.faviconUrl c)
  /\ Img.onError c (Img.faviconUrl c) = Some (Img.avatarUrl c)
  /\ Img.onError c (Img.avatarUrl c) = None.
Proof.
  intros Hd Hn1 Hn2. unfold Img.onError. split; [|split].
  - by rewrite logoUrl_clearbit.
  - by rewrite faviconUrl_clearbit, Hd, faviconUrl_google.
  - unfold Img.avatarUrl.
    rewrite !includes_between by done. by rewrite Hn1, Hn2.
Qed.

(** X23. The tests look for [clearbit] anywhere in the [src]: for a company
    whose domain contains that word the favicon URL passes the first test
    too, so the failure of the favicon assigns the favicon URL again and the
    avatar is never asked for. *)
Theorem logo_fallback_stuck_on_clearbit_domain c :
  Str.occurs_in "clearbit" (domain c) ->
  Img.onError c (Img.logoUrl c) = Some (Img.faviconUrl c)
  /\ Img.onError c (Img.faviconUrl c) = Some (Img.faviconUrl c)
  /\ Img.onError c (Img.faviconUrl c) <> Some (Img.avatarUrl c).
Proof.
  intros Hd%includes_spec. unfold Img.onError.
  rewrite logoUrl_clearbit, faviconUrl_clearbit, Hd.
  split; [done|]. split; [done|].
  intros [=].
Qed.

(** ** The range of the percentage *)

(** X24. For a catalog of one to 100 companies the percentage is a whole
    number from 0 to 100: 100 when every company is on one of the three
    providers, 0 when none is. *)
Theorem big3Percent_range st :
  0 < length (allCompanies st) <= 100 ->
  exists r, big3Percent st = Num.ofZ r
            /\ (0 <= r <= 100)%Z
            /\ (big3Count st = length (allCompanies st) -> r = 100%Z)
            /\ (big3Count st = 0 -> r = 0%Z).
Proof.
  intros Hn. pose proof (big3Count_le st) as Hk.
  destruct (percentOf_nearest (big3Count st) (length (allCompanies st)) Hn Hk)
    as (r & Hr & Hnear).
  exists r. rewrite big3Percent_percentOf. split; [done|].
  unfold Num.nearestPercent in Hnear.
  repeat split; try intros ->; nia.
Qed.

End Dashboard.

(** * The scenarios, run on the sample catalog *)

Import Scenario.

(** The query "net" finds Netflix, the query "zzz" finds nothing. *)
Example filteredCompanies_search :
  filteredCompanies (H:=rt) seed (with_searchQuery "net" initialState) = [netflix]
  /\ filteredCompanies (H:=rt) seed (with_searchQuery "zzz" initialState) = [].
Proof. split; reflexivity. Qed.

(** Hovering AWS shows the three AWS companies although the search and the
    sticky filter select none. *)
Lemma displayedCompanies_hover_priority_witness :
  set_to (hoveredProvider hoveringAWS) "AWS"
  /\ displayedCompanies (H:=rt) seed hoveringAWS = [netflix; reddit; slack]
  /\ filteredCompanies (H:=rt) seed hoveringAWS = []
  /\ displayedCompanies (H:=rt) seed initialState
     = filteredCompanies (H:=rt) seed initialState.
Proof.
  assert (set_to (hoveredProvider hoveringAWS) "AWS") as Hset
    by (split; [reflexivity | discriminate]).
  split; [exact Hset|]. split; [|split; [reflexivity|]].
  - exact (proj1 (proj1 (displayedCompanies_hover_priority (H:=rt) seed hoveringAWS)
                    "AWS" Hset)).
  - exact (proj2 (displayedCompanies_hover_priority (H:=rt) seed initialState)
             eq_refl).
Defined.

(** Submitting the URL of Netflix, already in the catalog. *)
Lemma handleAddCompany_rejects_duplicate_witness :
  let st := typed "https://www.netflix.com" in
  let detect := answers (JString "AWS") in
  let st' := run st (handleAddCompany (H:=rt) seed st detect) in
  Str.trim (newCompanyUrl st) <> ""
  /\ normalizeDomain (H:=rt) (newCompanyUrl st) = Some "netflix.com"
  /\ "netflix.com" ∈ map domain (allCompanies seed st)
  /\ requests (handleAddCompany (H:=rt) seed st detect) = []
  /\ detectionError st' = Some "Company already exists"
  /\ allCompanies seed st' = allCompanies seed st
  /\ length (allCompanies seed st') = length (allCompanies seed st)
  /\ isDetecting st' = false.
Proof.
  intros st detect st'.
  assert (Str.trim (newCompanyUrl st) <> "") as H1 by (vm_compute; discriminate).
  assert (normalizeDomain (H:=rt) (newCompanyUrl st) = Some "netflix.com") as H2
    by reflexivity.
  assert ("netflix.com" ∈ map domain (allCompanies seed st)) as H3
    by (apply (bool_decide_unpack _); vm_compute; exact I).
  split; [exact H1|]. split; [exact H2|]. split; [exact H3|].
  exact (handleAddCompany_rejects_duplicate (H:=rt) seed st detect "netflix.com"
           H1 H2 H3).
Defined.

(** Submitting [https://www.stripe.com], the detector answering Other. *)
Lemma handleAddCompany_appends_detected_witness :
  let st := typed "https://www.stripe.com" in
  let detect := answers (JString "Other") in
  let st' := run st (handleAddCompany (H:=rt) seed st detect) in
  Str.trim (newCompanyUrl st) <> ""
  /\ normalizeDomain (H:=rt) (newCompanyUrl st) = Some "stripe.com"
  /\ ("stripe.com" ∉ map domain (allCompanies seed st))
  /\ detect (Str.trim (newCompanyUrl st)) = Response true (JsonValue (JString "Other"))
  /\ customCompanies st'
     = [{| name := "Stripe"; symbol := "CUSTOM"; domain := "stripe.com";
           provider := JString "Other" |}]
  /\ requests (handleAddCompany (H:=rt) seed st detect) = ["https://www.stripe.com"]
  /\ newCompanyUrl st' = ""
  /\ detectionError st' = None
  /\ isDetecting st' = false.
Proof.
  intros st detect st'.
  assert (Str.trim (newCompanyUrl st) <> "") as H1 by (vm_compute; discriminate).
  assert (normalizeDomain (H:=rt) (newCompanyUrl st) = Some "stripe.com") as H2
    by reflexivity.
  assert ("stripe.com" ∉ map domain (allCompanies seed st)) as H3
    by (apply (bool_decide_unpack _); vm_compute; exact I).
  assert (detect (Str.trim (newCompanyUrl st))
          = Response true (JsonValue (JString "Other"))) as H4 by reflexivity.
  split; [exact H1|]. split; [exact H2|]. split; [exact H3|]. split; [exact H4|].
  exact (handleAddCompany_appends_detected (H:=rt) seed st detect "stripe.com"
           (JString "Other") H1 H2 H3 H4).
Defined.

(** A provider outside the enumeration, and a response without the field. *)
Lemma handleAddCompany_records_provider_verbatim_witness :
  let st := typed "stripe.com" in
  let unknown := answers (JString "DigitalOcean") in
  let absent := answers JUndefined in
  Str.trim (newCompanyUrl st) <> ""
  /\ normalizeDomain (H:=rt) (newCompanyUrl st) = Some "stripe.com"
  /\ ("stripe.com" ∉ map domain (allCompanies seed st))
  /\ provider <$> last (customCompanies (run st (handleAddCompany (H:=rt) seed st unknown)))
     = Some (JString "DigitalOcean")
  /\ provider <$> last (customCompanies (run st (handleAddCompany (H:=rt) seed st absent)))
     = Some JUndefined.
Proof.
  intros st unknown absent.
  assert (Str.trim (newCompanyUrl st) <> "") as H1 by (vm_compute; discriminate).
  assert (normalizeDomain (H:=rt) (newCompanyUrl st) = Some "stripe.com") as H2
    by reflexivity.
  assert ("stripe.com" ∉ map domain (allCompanies seed st)) as H3
    by (apply (bool_decide_unpack _); vm_compute; exact I).
  split; [exact H1|]. split; [exact H2|]. split; [exact H3|]. split.
  - exact (handleAddCompany_records_provider_verbatim (H:=rt) seed st unknown
             "stripe.com" (JString "DigitalOcean") H1 H2 H3 eq_refl).
  - exact (handleAddCompany_records_provider_verbatim (H:=rt) seed st absent
             "stripe.com" JUndefined H1 H2 H3 eq_refl).
Defined.

(** An upper-case scheme: the URL parser would give [example.com], but the
    input is not parsed. *)
Lemma normalizeDomain_scheme_case_sensitive_witness :
  (forall rest, Str.trim "HTTPS://example.com" <> ("http://" +:+ rest))
  /\ (forall rest, Str.trim "HTTPS://example.com" <> ("https://" +:+ rest))
  /\ URL_hostname (Runtime:=rt) "HTTPS://example.com" = Some "example.com"
  /\ normalizeDomain (H:=rt) "HTTPS://example.com" = Some "HTTPS://example.com".
Proof.
  assert (forall rest, Str.trim "HTTPS://example.com" <> ("http://" +:+ rest)) as H1
    by (intros rest Heq; vm_compute in Heq; discriminate Heq).
  assert (forall rest, Str.trim "HTTPS://example.com" <> ("https://" +:+ rest)) as H2
    by (intros rest Heq; vm_compute in Heq; discriminate Heq).
  split; [exact H1|]. split; [exact H2|]. split; [reflexivity|].
  exact (normalizeDomain_scheme_case_sensitive (H:=rt) "HTTPS://example.com" H1 H2).
Defined.

(** C8, as stated, fails: an attempt with a draft of spaces issues no effect
    and leaves the message of the earlier attempt in place. *)
Lemma handleAddCompany_empty_attempt_keeps_error :
  Str.trim (newCompanyUrl staleError) = ""
  /\ handleAddCompany (H:=rt) seed staleError (answers (JString "AWS")) = []
  /\ detectionError
       (run staleError (handleAddCompany (H:=rt) seed staleError (answers (JString "AWS"))))
     = Some "Company already exists"
  /\ detectionError
       (run staleError (handleAddCompany (H:=rt) seed staleError (answers (JString "AWS"))))
     <> None.
Proof. repeat split; try reflexivity. discriminate. Qed.

(** An empty attempt and a non-empty one. *)
Lemma handleAddCompany_clears_error_of_nonempty_attempt_witness :
  let st := typed "stripe.com" in
  let detect := answers (JString "Other") in
  (Str.trim (newCompanyUrl staleError) = ""
   /\ handleAddCompany (H:=rt) seed staleError detect = []
   /\ run staleError (handleAddCompany (H:=rt) seed staleError detect) = staleError)
  /\ (Str.trim (newCompanyUrl st) <> ""
      /\ exists rest,
           handleAddCompany (H:=rt) seed st detect
           = SetIsDetecting true :: SetDetectionError None :: rest
           /\ detectionError (run st [SetIsDetecting true; SetDetectionError None])
              = None).
Proof.
  intros st detect.
  assert (Str.trim (newCompanyUrl staleError) = "") as H0 by reflexivity.
  assert (Str.trim (newCompanyUrl st) <> "") as H1 by (vm_compute; discriminate).
  split.
  - split; [exact H0|].
    exact (proj1 (handleAddCompany_clears_error_of_nonempty_attempt (H:=rt) seed
                    staleError detect) H0).
  - split; [exact H1|].
    exact (proj2 (handleAddCompany_clears_error_of_nonempty_attempt (H:=rt) seed
                    st detect) H1).
Defined.

(** C7, as stated, fails. A detection that answers [{provider:
    "constructor"}] adds a sixth company; the counts object then holds a
    string under [constructor] and the sum of its values is not a number.
    One that answers [{provider: "__proto__"}] adds a sixth company that no
    key counts: the values add up to 5. *)
Lemma providerCounts_sum_inherited_key :
  let st := typed "stripe.com" in
  let named := run st (handleAddCompany (H:=rt) seed st
                         (answers (JString "constructor"))) in
  let proto := run st (handleAddCompany (H:=rt) seed st
                         (answers (JString "__proto__"))) in
  (length (allCompanies seed named) = 6
   /\ providerCounts seed named !! "constructor" = Some (Obj.Text "constructor" 1)
   /\ sumCounts (providerCounts seed named) = None)
  /\ (length (allCompanies seed proto) = 6
      /\ providerCounts seed proto = providerCounts seed initialState
      /\ sumCounts (providerCounts seed proto) = Some 5).
Proof. vm_compute. repeat split. Qed.

(** With a provider named [constructor] beside the others, the comparator
    of the sort yields [NaN] and the order of the pills and of the slices
    is the implementation's. *)
Example sortedEntries_inherited_key :
  let st := typed "stripe.com" in
  let named := run st (handleAddCompany (H:=rt) seed st
                         (answers (JString "constructor"))) in
  Obj.entries (providerEntries seed named)
  = [("AWS", Obj.Number 3); ("Azure", Obj.Number 1); ("Oracle", Obj.Number 1);
     ("constructor", Obj.Text "constructor" 1)]
  /\ sortedEntries seed named = None
  /\ pieData seed named = None
  /\ colorOf "constructor" = Obj.Inherited "constructor".
Proof. vm_compute. repeat split. Qed.

(** C4, as stated, fails. With no company at all the percentage is [NaN],
    not 0. With 23 of 40 companies on AWS, [100 * 23 / 40] is 57.5, which
    rounds to 58, but the double [23 / 40 * 100] is below 57.5 and
    [Math.round] gives 57. *)
Lemma big3Percent_not_guarded_nor_exact :
  (length (allCompanies [] initialState) = 0
   /\ big3Percent [] initialState = Num.NaN
   /\ big3Percent [] initialState <> Num.ofNat 0)
  /\ (big3Count forty initialState = 23
      /\ length (allCompanies forty initialState) = 40
      /\ ((200 * 23 + 40) / (2 * 40) = 58)%Z
      /\ big3Percent forty initialState = Num.ofNat 57
      /\ big3Percent forty initialState <> Num.ofNat 58).
Proof.
  split.
  - repeat split. discriminate.
  - assert (big3Percent forty initialState = Num.ofNat 57) as Hp
      by (vm_compute; reflexivity).
    split; [vm_compute; reflexivity|]. split; [vm_compute; reflexivity|].
    split; [reflexivity|]. split; [exact Hp|].
    rewrite Hp. discriminate.
Qed.

(** Counts [{AWS: 3, Azure: 1}] among five companies: 80. *)
Example big3Percent_scenario :
  big3Count seed initialState = 4
  /\ length (allCompanies seed initialState) = 5
  /\ big3Percent seed initialState = Num.ofNat 80.
Proof. repeat split. Qed.

Lemma big3Percent_unguarded_witness :
  (big3Percent seed initialState
   = Num.round (Num.mul (Num.div (Num.ofNat 4) (Num.ofNat 5)) (Num.ofNat 100))
   /\ big3Percent seed initialState = Num.ofNat 80)
  /\ (length (allCompanies [] initialState) = 0
      /\ big3Percent [] initialState = Num.NaN).
Proof.
  pose proof (big3Percent_unguarded seed initialState) as (Hs & _ & _).
  pose proof (big3Percent_unguarded [] initialState) as (_ & _ & He).
  split.
  - split; [exact Hs|]. rewrite Hs. reflexivity.
  - split; [reflexivity | exact (He eq_refl)].
Defined.

(** * The further properties, run on the sample catalog *)

Lemma handleAddCompany_detection_failed_witness :
  let st := typed "stripe.com" in
  let st' := run st (handleAddCompany (H:=rt) seed st failing) in
  Str.trim (newCompanyUrl st) <> ""
  /\ normalizeDomain (H:=rt) (newCompanyUrl st) = Some "stripe.com"
  /\ ("stripe.com" ∉ map domain (allCompanies seed st))
  /\ detectionFailed (failing (Str.trim (newCompanyUrl st)))
  /\ requests (handleAddCompany (H:=rt) seed st failing) = ["stripe.com"]
  /\ detectionError st'
     = Some "Failed to detect cloud provider. Please try again."
  /\ customCompanies st' = []
  /\ newCompanyUrl st' = "stripe.com"
  /\ isDetecting st' = false.
Proof.
  intros st st'.
  assert (Str.trim (newCompanyUrl st) <> "") as H1 by (vm_compute; discriminate).
  assert (normalizeDomain (H:=rt) (newCompanyUrl st) = Some "stripe.com") as H2
    by reflexivity.
  assert ("stripe.com" ∉ map domain (allCompanies seed st)) as H3
    by (apply (bool_decide_unpack _); vm_compute; exact I).
  assert (detectionFailed (failing (Str.trim (newCompanyUrl st)))) as H4
    by (split; [intros [?|?]; discriminate | intros v; discriminate]).
  split; [exact H1|]. split; [exact H2|]. split; [exact H3|]. split; [exact H4|].
  exact (handleAddCompany_detection_failed (H:=rt) seed st failing "stripe.com"
           H1 H2 H3 H4).
Defined.

Lemma handleAddCompany_unparsable_url_witness :
  let st := typed "http://" in
  let st' := run st (handleAddCompany (H:=rt) seed st (answers (JString "AWS"))) in
  (Str.trim (newCompanyUrl st) = "http://" +:+ ""
   \/ Str.trim (newCompanyUrl st) = "https://" +:+ "")
  /\ URL_hostname (Runtime:=rt) (Str.trim (newCompanyUrl st)) = None
  /\ requests (handleAddCompany (H:=rt) seed st (answers (JString "AWS"))) = []
  /\ detectionError st'
     = Some "Failed to detect cloud provider. Please try again."
  /\ customCompanies st' = []
  /\ newCompanyUrl st' = "http://"
  /\ isDetecting st' = false.
Proof.
  intros st st'.
  assert (Str.trim (newCompanyUrl st) = "http://" +:+ ""
          \/ Str.trim (newCompanyUrl st) = "https://" +:+ "") as H1
    by (left; reflexivity).
  assert (URL_hostname (Runtime:=rt) (Str.trim (newCompanyUrl st)) = None) as H2
    by reflexivity.
  split; [exact H1|]. split; [exact H2|].
  exact (handleAddCompany_unparsable_url (H:=rt) seed st (answers (JString "AWS"))
           "" H1 H2).
Defined.

Lemma handleAddCompany_keeps_domains_unique_witness :
  let st := typed "stripe.com" in
  let detect := answers (JString "Other") in
  NoDup (map domain (allCompanies seed st))
  /\ NoDup (map domain (allCompanies seed (run st (handleAddCompany (H:=rt) seed st detect))))
  /\ length (allCompanies seed (run st (handleAddCompany (H:=rt) seed st detect))) = 6.
Proof.
  intros st detect.
  assert (NoDup (map domain (allCompanies seed st))) as H1
    by (apply (bool_decide_unpack _); vm_compute; exact I).
  split; [exact H1|]. split; [|reflexivity].
  exact (handleAddCompany_keeps_domains_unique (H:=rt) seed st detect H1).
Defined.

Lemma handleAddCompany_concurrent_duplicates_witness :
  let st := typed "stripe.com" in
  let detect := answers (JString "Other") in
  let first := handleAddCompany (H:=rt) seed st detect in
  let second := handleAddCompany (H:=rt) seed (run st (beforeAwait first)) detect in
  let trace := beforeAwait first ++ beforeAwait second
               ++ afterAwait first ++ afterAwait second in
  let c := {| name := "Stripe"; symbol := "CUSTOM"; domain := "stripe.com";
              provider := JString "Other" |} in
  Str.trim (newCompanyUrl st) <> ""
  /\ normalizeDomain (H:=rt) (newCompanyUrl st) = Some "stripe.com"
  /\ ("stripe.com" ∉ map domain (allCompanies seed st))
  /\ requests trace = ["stripe.com"; "stripe.com"]
  /\ customCompanies (run st trace) = [c; c]
  /\ ~ NoDup (map domain (allCompanies seed (run st trace))).
Proof.
  intros st detect first second trace c.
  assert (Str.trim (newCompanyUrl st) <> "") as H1 by (vm_compute; discriminate).
  assert (normalizeDomain (H:=rt) (newCompanyUrl st) = Some "stripe.com") as H2
    by reflexivity.
  assert ("stripe.com" ∉ map domain (allCompanies seed st)) as H3
    by (apply (bool_decide_unpack _); vm_compute; exact I).
  split; [exact H1|]. split; [exact H2|]. split; [exact H3|].
  exact (handleAddCompany_concurrent_duplicates (H:=rt) seed st detect
           "stripe.com" (JString "Other") H1 H2 H3 eq_refl).
Defined.

Lemma handleAddCompany_frame_witness :
  let st := typed "stripe.com" in
  let es := handleAddCompany (H:=rt) seed st silent in
  let st' := run st es in
  detectionUnsettled (silent (Str.trim (newCompanyUrl st)))
  /\ requests es = ["stripe.com"]
  /\ isDetecting st' = true
  /\ detectionError st' = None
  /\ customCompanies st' = customCompanies st
  /\ newCompanyUrl st' = newCompanyUrl st.
Proof.
  intros st es st'.
  assert (detectionUnsettled (silent (Str.trim (newCompanyUrl st)))) as H1
    by (left; reflexivity).
  assert (requests es <> []) as H2 by (vm_compute; discriminate).
  split; [exact H1|]. split; [reflexivity|].
  exact (proj2 (proj2 (proj2 (proj2 (proj2 (proj2
           (handleAddCompany_frame (H:=rt) seed st silent)))))) H1 H2).
Defined.

Lemma hovered_list_has_pill_count_witness :
  (forall c, c ∈ allCompanies seed hoveringAWS -> provider c <> JUndefined)
  /\ set_to (hoveredProvider hoveringAWS) "AWS"
  /\ Obj.inherited "AWS" = false
  /\ Obj.orZero (Obj.read_of (providerCounts seed hoveringAWS !! "AWS") "AWS")
     = Some (length (displayedCompanies (H:=rt) seed hoveringAWS))
  /\ length (displayedCompanies (H:=rt) seed hoveringAWS) = 3.
Proof.
  assert (forall c, c ∈ allCompanies seed hoveringAWS -> provider c <> JUndefined)
    as H1.
  { apply Forall_forall. apply (bool_decide_unpack _). vm_compute. exact I. }
  assert (set_to (hoveredProvider hoveringAWS) "AWS") as H2
    by (split; [reflexivity | discriminate]).
  split; [exact H1|]. split; [exact H2|]. split; [reflexivity|].
  split; [|reflexivity].
  exact (hovered_list_has_pill_count (H:=rt) seed hoveringAWS "AWS" H1 H2 eq_refl).
Defined.

Lemma pieData_slices_are_counts_witness :
  (forall k, k ∈ providerKeys seed initialState -> Obj.inherited k = false)
  /\ pieData seed initialState
     = Some [ {| Pie.name := "AWS"; Pie.value := Obj.Number 3;
                 Pie.color := Obj.Own "#ff9900" |};
              {| Pie.name := "Azure"; Pie.value := Obj.Number 1;
                 Pie.color := Obj.Own "#0089d6" |};
              {| Pie.name := "Oracle"; Pie.value := Obj.Number 1;
                 Pie.color := Obj.Own "#f80000" |} ]
  /\ exists slices,
       pieData seed initialState = Some slices
       /\ map (fun s => (Pie.name s, Pie.value s)) slices
            ≡ₚ map_to_list (providerCounts seed initialState)
       /\ NoDup (map Pie.name slices)
       /\ sumValues slices = Some (length (allCompanies seed initialState))
       /\ forall s, s ∈ slices ->
            Obj.get COLORS (Pie.name s) = None ->
            Obj.lookup COLORS "Other" = Pie.color s.
Proof.
  assert (forall k, k ∈ providerKeys seed initialState -> Obj.inherited k = false)
    as H1.
  { apply Forall_forall. apply (bool_decide_unpack _). vm_compute. exact I. }
  split; [exact H1|]. split; [reflexivity|].
  exact (pieData_slices_are_counts seed initialState H1).
Defined.

Lemma pieData_sorted_by_count_witness :
  (forall k, k ∈ providerKeys seed initialState -> Obj.inherited k = false)
  /\ sortedEntries seed initialState
     = Some [("AWS", Obj.Number 3); ("Azure", Obj.Number 1);
             ("Oracle", Obj.Number 1)]
  /\ exists slices entries,
       pieData seed initialState = Some slices
       /\ sortedEntries seed initialState = Some entries
       /\ StronglySorted
            (fun a b => exists x y, Pie.value a = Obj.Number x
                                    /\ Pie.value b = Obj.Number y /\ y <= x)
            slices
       /\ StronglySorted
            (fun a b => exists x y, a.2 = Obj.Number x /\ b.2 = Obj.Number y
                                    /\ y <= x)
            entries.
Proof.
  assert (forall k, k ∈ providerKeys seed initialState -> Obj.inherited k = false)
    as H1.
  { apply Forall_forall. apply (bool_decide_unpack _). vm_compute. exact I. }
  split; [exact H1|]. split; [reflexivity|].
  exact (pieData_sorted_by_count seed initialState H1).
Defined.

Lemma pieData_ties_keep_entries_order_witness :
  (forall k, k ∈ providerKeys seed initialState -> Obj.inherited k = false)
  /\ List.filter (fun e => match e.2 with
                           | Obj.Number x => Nat.eqb x 1
                           | Obj.Text _ _ => false
                           end) (Obj.entries (providerEntries seed initialState))
     = [("Azure", Obj.Number 1); ("Oracle", Obj.Number 1)]
  /\ exists entries,
       sortedEntries seed initialState = Some entries
       /\ List.filter (fun e => match e.2 with
                                | Obj.Number x => Nat.eqb x 1
                                | Obj.Text _ _ => false
                                end) entries
          = List.filter (fun e => match e.2 with
                                  | Obj.Number x => Nat.eqb x 1
                                  | Obj.Text _ _ => false
                                  end)
              (Obj.entries (providerEntries seed initialState)).
Proof.
  assert (forall k, k ∈ providerKeys seed initialState -> Obj.inherited k = false)
    as H1.
  { apply Forall_forall. apply (bool_decide_unpack _). vm_compute. exact I. }
  split; [exact H1|]. split; [reflexivity|].
  exact (pieData_ties_keep_entries_order seed initialState 1 H1).
Defined.

Lemma providerEntries_first_appearance_witness :
  (forall k, k ∈ providerKeys seed initialState -> Obj.arrayIndex k = None)
  /\ (Obj.entries (providerEntries seed initialState)).*1
     = reverse (remove_dups (reverse
         (List.filter (fun k => negb (String.eqb k "__proto__"))
                      (providerKeys seed initialState))))
  /\ (Obj.entries (providerEntries seed initialState)).*1
     = ["AWS"; "Azure"; "Oracle"].
Proof.
  assert (forall k, k ∈ providerKeys seed initialState -> Obj.arrayIndex k = None)
    as H1.
  { apply Forall_forall. apply (bool_decide_unpack _). vm_compute. exact I. }
  split; [exact H1|]. split; [|reflexivity].
  exact (providerEntries_first_appearance seed initialState H1).
Defined.

Lemma normalizeDomain_bare_witness :
  (forall rest, Str.trim " Netflix.com " <> ("http://" +:+ rest))
  /\ (forall rest, Str.trim " Netflix.com " <> ("https://" +:+ rest))
  /\ ~ Str.occurs_in "www." (Str.trim " Netflix.com ")
  /\ normalizeDomain (H:=rt) " Netflix.com " = Some "Netflix.com"
  /\ "Netflix.com" ∉ map domain (allCompanies seed initialState).
Proof.
  assert (forall rest, Str.trim " Netflix.com " <> ("http://" +:+ rest)) as H1
    by (intros rest Heq; vm_compute in Heq; discriminate Heq).
  assert (forall rest, Str.trim " Netflix.com " <> ("https://" +:+ rest)) as H2
    by (intros rest Heq; vm_compute in Heq; discriminate Heq).
  assert (~ Str.occurs_in "www." (Str.trim " Netflix.com ")) as H3
    by (intros Hocc%includes_spec; vm_compute in Hocc; discriminate Hocc).
  split; [exact H1|]. split; [exact H2|]. split; [exact H3|]. split.
  - exact (normalizeDomain_bare (H:=rt) " Netflix.com " H1 H2 H3).
  - apply (bool_decide_unpack _). vm_compute. exact I.
Defined.

Lemma handleSearch_timer_when_nothing_found_witness :
  let es := handleSearch (H:=rt) seed initialState "stripe.com" in
  SetNewCompanyUrl "stripe.com" ∈ timers es
  /\ timers es = [SetNewCompanyUrl "stripe.com"]
  /\ (forall c, c ∈ allCompanies seed initialState ->
        ~ Str.occurs_in (toLowerCase (Runtime:=rt) "stripe.com")
                        (toLowerCase (Runtime:=rt) (name c)))
  /\ runUi initialState es = searching "stripe.com"
  /\ filteredCompanies (H:=rt) seed (runUi initialState es) = [].
Proof.
  intros es.
  assert (SetNewCompanyUrl "stripe.com" ∈ timers es) as H1
    by (vm_compute; apply list_elem_of_singleton; reflexivity).
  split; [exact H1|].
  pose proof (handleSearch_timer_when_nothing_found (H:=rt) seed initialState
                "stripe.com" (SetNewCompanyUrl "stripe.com") H1)
    as (_ & Ht & _ & _ & Hno & Hst & Hf).
  split; [exact Ht|]. split; [exact Hno|]. split; [exact Hst | exact Hf].
Defined.

Lemma handleSearch_found_starts_no_timer_witness :
  netflix ∈ allCompanies seed initialState
  /\ Str.occurs_in (toLowerCase (Runtime:=rt) "FLIX")
                   (toLowerCase (Runtime:=rt) (name netflix))
  /\ timers (handleSearch (H:=rt) seed initialState "FLIX") = []
  /\ runUi initialState (handleSearch (H:=rt) seed initialState "FLIX")
     = searching "FLIX".
Proof.
  assert (netflix ∈ allCompanies seed initialState) as H1 by (by left).
  assert (Str.occurs_in (toLowerCase (Runtime:=rt) "FLIX")
                        (toLowerCase (Runtime:=rt) (name netflix))) as H2
    by (apply includes_spec; reflexivity).
  split; [exact H1|]. split; [exact H2|].
  pose proof (handleSearch_found_starts_no_timer (H:=rt) seed initialState
                "FLIX" netflix H1 H2) as (Ht & _ & Hst).
  split; [exact Ht | exact Hst].
Defined.

Lemma onKeyDown_blank_draft_witness :
  let st := searching "stripe.com" in
  let detect := answers (JString "Other") in
  Str.occurs_in "." (searchQuery st)
  /\ Str.trim (newCompanyUrl st) = ""
  /\ uiRequests (onKeyDown (H:=rt) seed st "Enter" detect) = []
  /\ runUi st (onKeyDown (H:=rt) seed st "Enter" detect)
     = with_newCompanyUrl "stripe.com" st.
Proof.
  intros st detect.
  assert (Str.occurs_in "." (searchQuery st)) as H1
    by (apply includes_spec; reflexivity).
  assert (Str.trim (newCompanyUrl st) = "") as H2 by reflexivity.
  split; [exact H1|]. split; [exact H2|].
  exact (onKeyDown_blank_draft (H:=rt) seed st detect H1 H2).
Defined.

Lemma search_then_enter_adds_witness :
  let detect := answers (JString "Other") in
  let searched := handleSearch (H:=rt) seed initialState "stripe.com" in
  let fired := run (runUi initialState searched) (timers searched) in
  let es := onKeyDown (H:=rt) seed fired "Enter" detect in
  timers searched <> []
  /\ normalizeDomain (H:=rt) "stripe.com" = Some "stripe.com"
  /\ ("stripe.com" ∉ map domain (allCompanies seed initialState))
  /\ newCompanyUrl fired = "stripe.com"
  /\ uiRequests es = ["stripe.com"]
  /\ customCompanies (runUi fired es)
     = [{| name := "Stripe"; symbol := "CUSTOM"; domain := "stripe.com";
           provider := JString "Other" |}]
  /\ newCompanyUrl (runUi fired es) = ""
  /\ searchQuery (runUi fired es) = "stripe.com".
Proof.
  intros detect searched fired es.
  assert (timers searched <> []) as H1 by (vm_compute; discriminate).
  assert (normalizeDomain (H:=rt) "stripe.com" = Some "stripe.com") as H2
    by reflexivity.
  assert ("stripe.com" ∉ map domain (allCompanies seed initialState)) as H3
    by (apply (bool_decide_unpack _); vm_compute; exact I).
  split; [exact H1|]. split; [exact H2|]. split; [exact H3|].
  exact (search_then_enter_adds (H:=rt) seed initialState "stripe.com" detect
           "stripe.com" (JString "Other") H1 H2 H3 eq_refl).
Defined.

Lemma hover_is_transient_witness :
  "AWS" <> ""
  /\ displayedCompanies (H:=rt) seed (runUi (searching "zzz") (onProviderEnter "AWS"))
     = [netflix; reddit; slack]
  /\ displayedCompanies (H:=rt) seed
       (runUi (runUi (searching "zzz") (onProviderEnter "AWS")) onProviderLeave)
     = [].
Proof.
  assert ("AWS" <> "") as H1 by discriminate.
  pose proof (hover_is_transient (H:=rt) seed (searching "zzz") "AWS")
    as (_ & _ & _ & Hshown & Hleft & _).
  split; [exact H1|]. split; [exact (Hshown H1) | exact Hleft].
Defined.

Lemma clear_search_shows_catalog_witness :
  let st := with_selectedProvider (Some "GCP") (searching "zzz") in
  unset (hoveredProvider st) = true
  /\ filteredCompanies (H:=rt) seed st = []
  /\ displayedCompanies (H:=rt) seed (runUi st onClearSearch) = seed.
Proof.
  intros st.
  assert (unset (hoveredProvider st) = true) as H1 by reflexivity.
  split; [exact H1|]. split; [reflexivity|].
  exact (proj2 (clear_search_shows_catalog (H:=rt) seed st) H1).
Defined.

Lemma gridTitle_agrees_with_grid_witness :
  (set_to (focusedProvider hoveringAWS) "AWS"
   /\ gridTitle (H:=rt) hoveringAWS = "AWS Companies"
   /\ (forall c, c ∈ displayedCompanies (H:=rt) seed hoveringAWS
                 -> provider c = JString "AWS"))
  /\ (set_to (focusedProvider (hovering "constructor")) "constructor"
      /\ gridTitle (H:=rt) (hovering "constructor")
         = "function Object() { [native code] } Companies"
      /\ displayNameOf "constructor" = Obj.Inherited "constructor")
  /\ (unset (focusedProvider (searching "net")) = true
      /\ gridTitle (H:=rt) (searching "net") = "All Companies").
Proof.
  assert (set_to (focusedProvider hoveringAWS) "AWS") as H1
    by (split; [reflexivity | discriminate]).
  assert (set_to (focusedProvider (hovering "constructor")) "constructor") as H3
    by (split; [reflexivity | discriminate]).
  assert (unset (focusedProvider (searching "net")) = true) as H2 by reflexivity.
  pose proof (proj1 (gridTitle_agrees_with_grid (H:=rt) seed hoveringAWS) "AWS" H1)
    as (Ht & _ & Hc).
  pose proof (proj1 (gridTitle_agrees_with_grid (H:=rt) seed (hovering "constructor"))
                "constructor" H3) as (Hf & Hi & _).
  pose proof (proj2 (gridTitle_agrees_with_grid (H:=rt) seed (searching "net")) H2)
    as [Ht' _].
  split; [|split].
  - split; [exact H1|]. split; [exact Ht | exact Hc].
  - split; [exact H3|]. split; [exact Hf | exact Hi].
  - split; [exact H2 | exact Ht'].
Defined.

Lemma provider_click_toggles_witness :
  let st := searching "e" in
  let clicked := runUi st (onProviderClick st "AWS") in
  let again := runUi clicked (onProviderClick clicked "AWS") in
  selectedProvider st <> Some "AWS"
  /\ selectedProvider clicked = Some "AWS"
  /\ selectedProvider again = None
  /\ filteredCompanies (H:=rt) seed clicked = [netflix; reddit]
  /\ selectedProvider clicked = Some "AWS"
  /\ again = st.
Proof.
  intros st clicked again.
  assert (selectedProvider st <> Some "AWS") as H1 by discriminate.
  assert (selectedProvider clicked = Some "AWS") as H2 by reflexivity.
  pose proof (proj1 (proj2 (provider_click_toggles (H:=rt) seed st "AWS")) H1)
    as (Hc & Ha & _).
  pose proof (proj1 (provider_click_toggles (H:=rt) seed clicked "AWS") H2)
    as (_ & _).
  split; [exact H1|]. split; [exact Hc|]. split; [exact Ha|].
  split; [reflexivity|]. split; [exact H2 | reflexivity].
Defined.

Lemma logo_fallback_chain_witness :
  Str.includes (domain netflix) "clearbit" = false
  /\ Str.includes (Img.encodeURIComponent (name netflix)) "clearbit" = false
  /\ Str.includes (Img.encodeURIComponent (name netflix)) "google.com" = false
  /\ Img.onError netflix "https://logo.clearbit.com/netflix.com"
     = Some "https://www.google.com/s2/favicons?domain=netflix.com&sz=128"
  /\ Img.onError netflix "https://www.google.com/s2/favicons?domain=netflix.com&sz=128"
     = Some "https://ui-avatars.com/api/?name=Netflix&background=random&size=128"
  /\ Img.onError netflix
       "https://ui-avatars.com/api/?name=Netflix&background=random&size=128"
     = None.
Proof.
  split; [reflexivity|]. split; [reflexivity|]. split; [reflexivity|].
  exact (logo_fallback_chain netflix eq_refl eq_refl eq_refl).
Defined.

Lemma logo_fallback_stuck_on_clearbit_domain_witness :
  Str.occurs_in "clearbit" (domain clearbit)
  /\ Img.onError clearbit "https://www.google.com/s2/favicons?domain=clearbit.com&sz=128"
     = Some "https://www.google.com/s2/favicons?domain=clearbit.com&sz=128".
Proof.
  assert (Str.occurs_in "clearbit" (domain clearbit)) as H1
    by (apply includes_spec; reflexivity).
  split; [exact H1|].
  exact (proj1 (proj2 (logo_fallback_stuck_on_clearbit_domain clearbit H1))).
Defined.

Lemma big3Percent_range_witness :
  0 < length (allCompanies seed initialState) <= 100
  /\ exists r, big3Percent seed initialState = Num.ofZ r
               /\ (0 <= r <= 100)%Z
               /\ (big3Count seed initialState = length (allCompanies seed initialState)
                   -> r = 100%Z)
               /\ (big3Count seed initialState = 0 -> r = 0%Z).
Proof.
  assert (0 < length (allCompanies seed initialState) <= 100) as H1
    by (simpl; lia).
  split; [exact H1|].
  exact (big3Percent_range seed initialState H1).
Defined.
